(** * PTY-backed process spawning: [src/main/jni/pty.c]

  A shallow embedding of the two JNI entry points of [pty.c],
  [createSubprocess] and [waitFor], together with the properties the
  design document states about them.

  The C library and the JNI runtime are outside the file: [forkpty],
  [chdir], [malloc], [strdup], [execvpe], [waitpid], the JNI string
  and array accessors and the constants of [<termios.h>] and
  [<sys/wait.h>] appear here as fields of a platform record, and the
  theorems say which of their documented guarantees they rely on. *)

From Stdlib Require Import ZArith Lia List String Ascii Bool.
From stdpp Require Import gmap list.

Open Scope Z_scope.

(** ** Bit flags *)

(** [flags] has every bit of [f] set: the C test [(flags & f) == f]. *)
Definition has_flag (flags f : Z) : Prop := Z.land flags f = f.

(** ** Terminal mode: lines 28-43 *)

Module Termios.

(** The constants of [<termios.h>] used by [pty.c].  Their values
    differ between the Linux and Darwin headers the file can include,
    so they are taken as a parameter. *)
Record abi := {
  ICRNL : Z; IXON : Z; IXANY : Z;
  OPOST : Z; ONLCR : Z;
  ISIG : Z; ICANON : Z; ECHO : Z; ECHOE : Z; ECHOK : Z; ECHONL : Z; IEXTEN : Z;
  CS8 : Z; CREAD : Z;
  NCCS : nat;
  VINTR : nat; VQUIT : nat; VERASE : nat; VKILL : nat; VEOF : nat;
  VSTOP : nat; VSUSP : nat; VSTART : nat; VMIN : nat; VTIME : nat
}.

(** [struct termios]: the four flag words and the control-character
    array.  (The remaining members, line discipline and speeds, stay
    at the zero the [memset] leaves.) *)
Record termios := {
  c_iflag : Z;
  c_oflag : Z;
  c_cflag : Z;
  c_lflag : Z;
  c_cc : list Z
}.

(** A character constant as the [int] C makes of it. *)
Definition chr (c : ascii) : Z := Z.of_N (N_of_ascii c).

(** Conversion to [cc_t], an unsigned char. *)
Definition to_cc (v : Z) : Z := v mod 256.

(** The control-character slots the code assigns, in the order of
    the assignments. *)
Definition slots (p : abi) : list nat :=
  [VINTR p; VQUIT p; VERASE p; VKILL p; VEOF p;
   VSTOP p; VSUSP p; VSTART p; VMIN p; VTIME p].

(** The header is well formed for this code when the ten slots are
    ten different indices of [c_cc]. *)
Definition abi_ok (p : abi) : Prop :=
  NoDup (slots p) /\ Forall (fun i => (i < NCCS p)%nat) (slots p).

(** Lines 28-43.  The function takes nothing from its caller. *)
Definition default_termios (p : abi) : termios :=
  let cc := repeat 0 (NCCS p) in                           (* memset *)
  let cc := <[VINTR p := to_cc (chr "C" - chr "@")]> cc in
  let cc := <[VQUIT p := to_cc (chr "\" - chr "@")]> cc in
  let cc := <[VERASE p := to_cc 127]> cc in                (* 0x7f, DEL *)
  let cc := <[VKILL p := to_cc (chr "U" - chr "@")]> cc in
  let cc := <[VEOF p := to_cc (chr "D" - chr "@")]> cc in
  let cc := <[VSTOP p := to_cc (chr "S" - chr "@")]> cc in
  let cc := <[VSUSP p := to_cc (chr "Z" - chr "@")]> cc in
  let cc := <[VSTART p := to_cc (chr "Q" - chr "@")]> cc in
  let cc := <[VMIN p := to_cc 1]> cc in
  let cc := <[VTIME p := to_cc 0]> cc in
  {| c_iflag := Z.lor (Z.lor (ICRNL p) (IXON p)) (IXANY p);
     c_oflag := Z.lor (OPOST p) (ONLCR p);
     c_lflag := Z.lor (Z.lor (Z.lor (Z.lor (Z.lor (Z.lor
                  (ISIG p) (ICANON p)) (ECHO p)) (ECHOE p)) (ECHOK p)) (ECHONL p)) (IEXTEN p);
     c_cflag := Z.lor (CS8 p) (CREAD p);
     c_cc := cc |}.

(** The values of the Linux headers (asm-generic/termbits.h), which
    Android uses. *)
Definition linux : abi := {|
  ICRNL := 0x100; IXON := 0x400; IXANY := 0x800;
  OPOST := 0x1; ONLCR := 0x4;
  ISIG := 0x1; ICANON := 0x2; ECHO := 0x8; ECHOE := 0x10; ECHOK := 0x20;
  ECHONL := 0x40; IEXTEN := 0x8000;
  CS8 := 0x30; CREAD := 0x80;
  NCCS := 19;
  VINTR := 0; VQUIT := 1; VERASE := 2; VKILL := 3; VEOF := 4;
  VSTOP := 9; VSUSP := 10; VSTART := 8; VMIN := 6; VTIME := 5
|}.

End Termios.

(** ** Reaping: lines 99-107 *)

Module Wait.

(** How a child stopped being what it was, as [waitpid] classifies it. *)
Inductive termination :=
| Exited (code : Z)
| Signaled (sig : Z) (core : bool)
| Stopped (sig : Z)
| Continued.

(** The part of [<sys/wait.h>] the code uses, and the encoding of a
    classification into the status word that the macros take apart. *)
Record abi := {
  WIFEXITED : Z -> bool;
  WEXITSTATUS : Z -> Z;
  wstatus : termination -> Z
}.

(** A signal number that can end or stop a process. *)
Definition sig_ok (sig : Z) : Prop := 1 <= sig <= 64.

Definition termination_ok (t : termination) : Prop :=
  match t with
  | Exited _ | Continued => True
  | Signaled sig _ | Stopped sig => sig_ok sig
  end.

(** What POSIX promises of the macros: [WIFEXITED] holds exactly of
    the statuses of normal terminations, and [WEXITSTATUS] gives the
    low eight bits of the code the child passed to [exit]. *)
Record abi_ok (p : abi) : Prop := {
  exited_true : forall c, WIFEXITED p (wstatus p (Exited c)) = true;
  exited_code : forall c, WEXITSTATUS p (wstatus p (Exited c)) = c mod 256;
  other_false : forall t, termination_ok t ->
    (forall c, t <> Exited c) -> WIFEXITED p (wstatus p t) = false;
  code_range : forall st, 0 <= WEXITSTATUS p st <= 255
}.

(** The Linux encoding. *)
Definition linux : abi := {|
  WIFEXITED := fun st => Z.land st 0x7f =? 0;
  WEXITSTATUS := fun st => Z.shiftr (Z.land st 0xff00) 8;
  wstatus := fun t =>
    match t with
    | Exited c => Z.shiftl (Z.land c 0xff) 8
    | Signaled sig core => Z.lor (Z.land sig 0x7f) (if core then 0x80 else 0)
    | Stopped sig => Z.lor (Z.shiftl (Z.land sig 0xff) 8) 0x7f
    | Continued => 0xffff
    end
|}.

(** What one call of [waitpid] did: the value it returned, and the
    status it stored, if it stored one.  On error it returns -1 and
    stores nothing. *)
Record waited := {
  wret : Z;
  wstored : option Z
}.

Section WaitFor.
Variable p : abi.
Variable waitpid : Z -> Z -> waited.

(** Lines 100-107.  [status] is declared without an initialiser:
    [indeterminate] is what the variable holds before the call.
    The return value of [waitpid] is not looked at. *)
Definition waitFor (indeterminate : Z) (pid : Z) : Z :=
  let status := indeterminate in
  let w := waitpid pid 0 in
  let status := match wstored w with Some st => st | None => status end in
  if WIFEXITED p status then WEXITSTATUS p status else -1.

End WaitFor.

End Wait.

(** ** Spawning: lines 20-97 *)

Module Spawn.
Import Termios.

(** *** Values *)

(** A Java string, given by the bytes [GetStringUTFChars] produces for
    it (its modified UTF-8 form), and an array of them.  The arrays
    the Kotlin side passes hold no null elements. *)
Abbreviation jstring := string (only parsing).
Abbreviation jobjectArray := (list string) (only parsing).

(** The C string a buffer holds: its characters up to the first NUL. *)
Fixpoint c_str (s : string) : string :=
  match s with
  | EmptyString => EmptyString
  | String c rest => if Ascii.eqb c Ascii.zero then EmptyString else String c (c_str rest)
  end.

Fixpoint has_nul (s : string) : bool :=
  match s with
  | EmptyString => false
  | String c rest => Ascii.eqb c Ascii.zero || has_nul rest
  end.

(** Native memory: a pointer is [NULL] or the address of a block; a
    block is a character buffer or an array of [char *] cells, each
    cell holding what [malloc] left there until it is assigned. *)
Inductive pointer := NULL | Ptr (a : positive).
Inductive slot := Uninit | Stored (q : pointer).
Inductive block := Chars (s : string) | Vector (cells : list slot).

(** What the kernel holds for the calling process: its open
    descriptors and its children that have not been reaped. *)
Record os_state := {
  open_fds : gset nat;
  children : gset positive
}.

(** The calls the function makes, for the record of a run. *)
Inductive op :=
| OpForkpty (tt : termios)
| OpLog (msg : string)
| OpGetStringUTFChars
| OpReleaseStringUTFChars
| OpGetArrayLength
| OpGetObjectArrayElement
| OpChdir
| OpMalloc
| OpStrdup
| OpExecvpe (file : option string) (argv envp : list string)
| OpExit (code : Z)
| OpNewIntArray
| OpSetIntArrayRegion.

(** How a run of the function ends in the process that runs it: it
    returns to Java ([None] is the NULL array, [Some (pid, fd)] the
    array of two), the process exits, its image is replaced by the
    program, or it does something C leaves undefined (a store through
    a null pointer, a read of a cell never assigned). *)
Inductive outcome :=
| Returned (result : option (Z * Z))
| ProcessExited (code : Z)
| ImageReplaced (file : option string) (argv envp : list string)
| Undefined.

(** *** The platform *)

(** What lies outside [pty.c].
    - [forkpty tt os] gives the value returned, the value [master_fd]
      holds after the call and the kernel state of the process the
      call returns in;
    - [heap_gives k] says whether the [k]-th request for native memory
      of the run is granted;
    - [chdir path] is the value [chdir] returns;
    - [execvpe file argv envp] says whether the program starts;
    - [NewIntArray_gives] says whether the Java heap has room for the
      result. *)
Record platform := {
  termios_h : Termios.abi;
  forkpty : termios -> os_state -> Z * Z * os_state;
  heap_gives : nat -> bool;
  chdir : string -> Z;
  execvpe : option string -> list string -> list string -> bool;
  NewIntArray_gives : bool
}.

(** What [forkpty] documents: when it fails, no child exists and
    every descriptor it opened is closed again; when it returns in the
    parent, the master descriptor it stored is a descriptor number,
    newly open, and the child is new. *)
Definition forkpty_contract (P : platform) : Prop :=
  forall tt o pid fd o', forkpty P tt o = (pid, fd, o') ->
    (pid < 0 -> o' = o) /\
    (pid > 0 -> exists (n : nat) (child : positive),
                 fd = Z.of_nat n /\ pid = Z.pos child /\
                 (n ∉ open_fds o) /\ (child ∉ children o) /\
                 open_fds o' = {[n]} ∪ open_fds o /\
                 children o' = {[child]} ∪ children o).

(** *** State and control *)

Record state := {
  os : os_state;
  heap : gmap positive block;
  brk : positive;            (* the next address the allocator hands out *)
  asked : nat;               (* requests for native memory so far *)
  trace : list op
}.

(** Every block lies below the allocator's mark. *)
Definition heap_wf (s : state) : Prop :=
  forall a, is_Some (heap s !! a) -> (a < brk s)%positive.

Definition set_os (o : os_state) (s : state) : state :=
  {| os := o; heap := heap s; brk := brk s; asked := asked s; trace := trace s |}.

Definition set_heap (h : gmap positive block) (s : state) : state :=
  {| os := os s; heap := h; brk := brk s; asked := asked s; trace := trace s |}.

Definition record_op (e : op) (s : state) : state :=
  {| os := os s; heap := heap s; brk := brk s; asked := asked s; trace := trace s ++ [e] |}.

Inductive step (A : Type) :=
| Val (a : A)
| Halt (o : outcome).
Arguments Val {A} a.
Arguments Halt {A} o.

(** A computation threads the state and may stop the function. *)
Definition M (A : Type) : Type := state -> step A * state.

Definition ret {A} (a : A) : M A := fun s => (Val a, s).

Definition bind {A B} (m : M A) (k : A -> M B) : M B :=
  fun s => match m s with
           | (Val a, s') => k a s'
           | (Halt o, s') => (Halt o, s')
           end.

Definition halt {A} (o : outcome) : M A := fun s => (Halt o, s).

Definition emit (e : op) : M unit := fun s => (Val tt, record_op e s).

Declare Scope pty_scope.
Delimit Scope pty_scope with pty.
Notation "x <- m ;; k" := (bind m (fun x => k))
  (at level 100, m at next level, k at level 200, right associativity) : pty_scope.
Notation "m ;; k" := (bind m (fun _ => k))
  (at level 100, k at level 200, right associativity) : pty_scope.
Open Scope pty_scope.

(** [for (int i = start; i < start + count; i++) body(i)] *)
Fixpoint for_loop (start count : nat) (body : nat -> M unit) : M unit :=
  match count with
  | O => ret tt
  | S count' => body start ;; for_loop (S start) count' body
  end.

(** How the function ends, once run. *)
Definition run (m : M (option (Z * Z))) (s : state) : outcome * state :=
  match m s with
  | (Val r, s') => (Returned r, s')
  | (Halt o, s') => (o, s')
  end.

Section Code.
Variable P : platform.

(** *** Native memory *)

(** A request for a block: granted at a fresh address, or refused
    with [NULL]. *)
Definition allocate (b : block) : M pointer := fun s =>
  if heap_gives P (asked s)
  then (Val (Ptr (brk s)),
        {| os := os s; heap := <[brk s := b]> (heap s); brk := Pos.succ (brk s);
           asked := S (asked s); trace := trace s |})
  else (Val NULL,
        {| os := os s; heap := heap s; brk := brk s;
           asked := S (asked s); trace := trace s |}).

Definition release (q : pointer) : M unit := fun s =>
  match q with
  | NULL => (Val tt, s)
  | Ptr a => (Val tt, set_heap (delete a (heap s)) s)
  end.

(** Reading the C string at [q]. *)
Definition load_chars (q : pointer) : M string := fun s =>
  match q with
  | NULL => (Halt Undefined, s)
  | Ptr a => match heap s !! a with
             | Some (Chars str) => (Val (c_str str), s)
             | _ => (Halt Undefined, s)
             end
  end.

(** [vec[i] = x] *)
Definition store (vec : pointer) (i : nat) (x : pointer) : M unit := fun s =>
  match vec with
  | NULL => (Halt Undefined, s)
  | Ptr a => match heap s !! a with
             | Some (Vector cells) =>
                 if (i <? length cells)%nat
                 then (Val tt, set_heap (<[a := Vector (<[i := Stored x]> cells)]> (heap s)) s)
                 else (Halt Undefined, s)
             | _ => (Halt Undefined, s)
             end
  end.

(** [vec[i]] *)
Definition load (vec : pointer) (i : nat) : M pointer := fun s =>
  match vec with
  | NULL => (Halt Undefined, s)
  | Ptr a => match heap s !! a with
             | Some (Vector cells) =>
                 match cells !! i with
                 | Some (Stored x) => (Val x, s)
                 | _ => (Halt Undefined, s)
                 end
             | _ => (Halt Undefined, s)
             end
  end.

(** The strings a null-terminated vector holds, as [execvpe] reads
    them: cell after cell up to the first null pointer. *)
Fixpoint strings_until_null (h : gmap positive block) (cells : list slot)
  : option (list string) :=
  match cells with
  | [] => None
  | Uninit :: _ => None
  | Stored NULL :: _ => Some []
  | Stored (Ptr a) :: rest =>
      match h !! a with
      | Some (Chars str) =>
          match strings_until_null h rest with
          | Some l => Some (c_str str :: l)
          | None => None
          end
      | _ => None
      end
  end.

Definition vector_strings (h : gmap positive block) (vec : pointer)
  : option (list string) :=
  match vec with
  | NULL => None
  | Ptr a => match h !! a with
             | Some (Vector cells) => strings_until_null h cells
             | _ => None
             end
  end.

(** *** JNI *)

Definition GetStringUTFChars (j : jstring) : M pointer :=
  emit OpGetStringUTFChars ;; allocate (Chars j).

Definition ReleaseStringUTFChars (j : jstring) (q : pointer) : M unit :=
  emit OpReleaseStringUTFChars ;; release q.

Definition GetArrayLength (arr : jobjectArray) : M nat :=
  emit OpGetArrayLength ;; ret (length arr).

Definition GetObjectArrayElement (arr : jobjectArray) (i : nat) : M jstring :=
  emit OpGetObjectArrayElement ;;
  match arr !! i with
  | Some j => ret j
  | None => halt Undefined
  end.

Definition NewIntArray (n : nat) : M bool :=
  emit OpNewIntArray ;; ret (NewIntArray_gives P).

Definition SetIntArrayRegion : M unit := emit OpSetIntArrayRegion.

(** *** C library *)

Definition LOGE (msg : string) : M unit := emit (OpLog msg).

Definition exit {A} (code : Z) : M A :=
  emit (OpExit code) ;; halt (ProcessExited code).

Definition malloc (cells : nat) : M pointer :=
  emit OpMalloc ;; allocate (Vector (repeat Uninit cells)).

Definition strdup (q : pointer) : M pointer :=
  emit OpStrdup ;; str <- load_chars q ;; allocate (Chars str).

(** [chdir] of a null pointer fails in the kernel. *)
Definition sys_chdir (q : pointer) : M Z :=
  emit OpChdir ;;
  match q with
  | NULL => ret (-1)
  | Ptr _ => path <- load_chars q ;; ret (chdir P path)
  end.

Definition sys_forkpty (tt : termios) : M (Z * Z) := fun s =>
  let '(pid, master_fd, o) := forkpty P tt (os s) in
  (Val (pid, master_fd), record_op (OpForkpty tt) (set_os o s)).

(** [execvpe] reads its three arguments; it returns, with -1, only
    when the program did not start. *)
Definition sys_execvpe (file argv envp : pointer) : M Z := fun s =>
  let f := match file with
           | NULL => Some None
           | Ptr a => match heap s !! a with
                      | Some (Chars str) => Some (Some (c_str str))
                      | _ => None
                      end
           end in
  match f, vector_strings (heap s) argv, vector_strings (heap s) envp with
  | Some f, Some av, Some ev =>
      if execvpe P f av ev
      then (Halt (ImageReplaced f av ev), record_op (OpExecvpe f av ev) s)
      else (Val (-1), record_op (OpExecvpe f av ev) s)
  | _, _, _ => (Halt Undefined, s)
  end.

(** *** The function *)

(** Lines 64-67 and 74-77: the body of the two loops, which differ
    in the names of their variables only. *)
Definition marshal_entry (arr : jobjectArray) (vec : pointer) (i : nat) : M unit :=
  j_str <- GetObjectArrayElement arr i ;;
  str <- GetStringUTFChars j_str ;;
  copy <- strdup str ;;
  store vec i copy ;;
  ReleaseStringUTFChars j_str str.

(** Lines 61-69 and, with [cmdarray] for [envarray], lines 71-79.
    [len] is the length of a Java array, so [len + 1] stays within
    [int] and the request is for [len + 1] cells. *)
Definition marshal (arr : jobjectArray) : M pointer :=
  len <- GetArrayLength arr ;;
  vec <- malloc (len + 1) ;;
  for_loop 0 len (marshal_entry arr vec) ;;
  store vec len NULL ;;
  ret vec.

(** Lines 54-59. *)
Definition child_chdir (workingDir : jstring) : M unit :=
  cwd <- GetStringUTFChars workingDir ;;
  r <- sys_chdir cwd ;;
  (if r =? 0 then ret tt
   else (LOGE "chdir to %s failed" ;; exit 1)) ;;
  ReleaseStringUTFChars workingDir cwd.

(** Lines 61-85. *)
Definition child_exec (cmdarray envarray : jobjectArray) : M (option (Z * Z)) :=
  envp <- marshal envarray ;;
  argv <- marshal cmdarray ;;
  argv0 <- load argv 0 ;;
  sys_execvpe argv0 argv envp ;;
  LOGE "execvpe failed" ;;
  exit 1.

(** Lines 54-85, the branch [pid == 0]. *)
Definition child (cmdarray envarray : jobjectArray) (workingDir : jstring)
  : M (option (Z * Z)) :=
  child_chdir workingDir ;;
  child_exec cmdarray envarray.

(** What [chdir] returns in the child started from [s]: the answer of
    the kernel for the path, or -1 for the null pointer the child
    passes when it could not get the characters of [workingDir]. *)
Definition chdir_returns (workingDir : jstring) (s : state) : Z :=
  if heap_gives P (asked s) then chdir P (c_str workingDir) else -1.

(** Lines 87-95, the branch [pid > 0].  [pid_t], [int] and [jint]
    are the same 32-bit type here: filling the array converts nothing. *)
Definition parent (pid master_fd : Z) : M (option (Z * Z)) :=
  result <- NewIntArray 2 ;;
  if result
  then (let fill := (pid, master_fd) in
        SetIntArrayRegion ;; ret (Some fill))
  else ret None.

(** Lines 25-97. *)
Definition createSubprocess (cmdarray envarray : jobjectArray) (workingDir : jstring)
  : M (option (Z * Z)) :=
  let tt := default_termios (termios_h P) in
  forked <- sys_forkpty tt ;;
  let '(pid, master_fd) := forked in
  if pid <? 0 then (LOGE "forkpty failed" ;; ret None)
  else if pid =? 0 then child cmdarray envarray workingDir
  else parent pid master_fd.

End Code.

(** *** Vocabulary of the properties *)

(** The calls the marshalling of a vector makes, and the release of
    the working-directory buffer before it. *)
Definition marshal_op (e : op) : bool :=
  match e with
  | OpGetArrayLength | OpMalloc | OpGetObjectArrayElement
  | OpGetStringUTFChars | OpStrdup | OpReleaseStringUTFChars => true
  | _ => false
  end.

(** The async-signal-safe set, restricted to the calls of this file.
    POSIX (System Interfaces, 2.4.3) lists [chdir] and the exec
    family; [malloc], [strdup], [exit] (as opposed to [_exit]), the
    logger and the JNI accessors, which allocate or lock, are not in
    the set.  The glossary of the design document says the same: the
    set excludes most allocation and locking primitives. *)
Definition async_signal_safe (e : op) : bool :=
  match e with
  | OpChdir | OpExecvpe _ _ _ => true
  | _ => false
  end.

(** A computation that only makes calls satisfying [ok], leaves the
    kernel state alone and, if it stops the function, stops it with an
    outcome in [stops]. *)
Definition within (ok : op -> bool) (stops : outcome -> Prop) {A} (m : M A) : Prop :=
  forall s, exists t,
    trace (m s).2 = trace s ++ t /\ forallb ok t = true /\ os (m s).2 = os s /\
    match (m s).1 with
    | Halt o => stops o
    | Val _ => True
    end.

(** No restriction on the calls or on the outcome. *)
Definition any_op (_ : op) : bool := true.
Definition any_stop (_ : outcome) : Prop := True.

(** A computation that marshals and then ends in [execvpe]: it never
    yields a value; either it runs into undefined behaviour while
    marshalling, or its last call is an [execvpe] that started the
    program, or that [execvpe] failed and is followed by the log
    message and [exit(1)]. *)
Definition ends_in_exec (P : platform) {A} (m : M A) : Prop :=
  forall s, exists t,
    forallb marshal_op t = true /\ os (m s).2 = os s /\
    ((trace (m s).2 = trace s ++ t /\ (m s).1 = Halt Undefined) \/
     (exists f av ev,
        trace (m s).2 = trace s ++ t ++ [OpExecvpe f av ev] /\
        execvpe P f av ev = true /\ (m s).1 = Halt (ImageReplaced f av ev)) \/
     (exists f av ev,
        trace (m s).2 = trace s ++ t ++ [OpExecvpe f av ev; OpLog "execvpe failed"; OpExit 1] /\
        execvpe P f av ev = false /\ (m s).1 = Halt (ProcessExited 1))).

(** *** A platform to run the function on *)

(** A process that has just started: nothing on the native heap, no
    call made yet. *)
Definition fresh_state (o : os_state) : state :=
  {| os := o; heap := ∅; brk := 1%positive; asked := O; trace := [] |}.

(** What the kernel answers to the two calls [forkpty] makes. *)
Inductive fork_result := ForkFails | InChild | InParent.

Record kernel := {
  openpty_works : bool;
  fork_gives : fork_result
}.

(** [forkpty] as the C library implements it: [openpty], then [fork];
    if [fork] fails both descriptors are closed again; the child
    closes the master side and makes the slave side its terminal; the
    parent stores the master side, closes the slave side and returns
    the child's identifier.  [before] is what [master_fd] held when
    the call was made. *)
Definition libc_forkpty (k : kernel) (before : Z) (tt : termios) (o : os_state)
  : Z * Z * os_state :=
  if openpty_works k then
    let pty := fresh (open_fds o) in
    let tty := fresh ({[pty]} ∪ open_fds o) in
    let opened := {[tty]} ∪ ({[pty]} ∪ open_fds o) in
    match fork_gives k with
    | ForkFails =>
        (-1, before, {| open_fds := (opened ∖ {[pty]}) ∖ {[tty]}; children := children o |})
    | InChild =>
        (0, -1, {| open_fds := {[0%nat; 1%nat; 2%nat]} ∪ ((opened ∖ {[pty]}) ∖ {[tty]});
                   children := ∅ |})
    | InParent =>
        let pid := fresh (children o) in
        (Z.pos pid, Z.of_nat pty,
         {| open_fds := opened ∖ {[tty]}; children := {[pid]} ∪ children o |})
    end
  else (-1, before, o).

(** An Android device: the Linux headers, the C library's [forkpty],
    a file system with the directory "/" and the program "/bin/echo". *)
Definition android (k : kernel) (gives : nat -> bool) (java_heap : bool) : platform :=
  {| termios_h := Termios.linux;
     forkpty := libc_forkpty k 0;
     heap_gives := gives;
     chdir := fun path => if String.eqb path "/" then 0 else -1;
     execvpe := fun file _ _ =>
       match file with
       | Some path => String.eqb path "/bin/echo"
       | None => false
       end;
     NewIntArray_gives := java_heap |}.

(** The process of the application before the call: the three
    standard descriptors open, no children. *)
Definition app_process : state :=
  fresh_state {| open_fds := {[0%nat; 1%nat; 2%nat]}; children := ∅ |}.

(** *** Counting calls *)

Definition is_forkpty (e : op) : bool :=
  match e with OpForkpty _ => true | _ => false end.

Definition is_chdir (e : op) : bool :=
  match e with OpChdir => true | _ => false end.

Definition is_execvpe (e : op) : bool :=
  match e with OpExecvpe _ _ _ => true | _ => false end.

Definition is_exit (e : op) : bool :=
  match e with OpExit _ => true | _ => false end.

(** How many of the calls of [t] satisfy [f]. *)
Definition calls (f : op -> bool) (t : list op) : nat := length (List.filter f t).

(** What a started program was given, against what the caller passed:
    [av] and [ev] are leading parts of the command and of the
    environment, as C strings, and the file is the first argument. *)
Definition given_leading_parts (cmd env : list string)
    (f : option string) (av ev : list string) : Prop :=
  exists k1 k2 : nat,
    (k1 <= length cmd)%nat /\ (k2 <= length env)%nat /\
    av = map c_str (take k1 cmd) /\ ev = map c_str (take k2 env) /\
    f = head av.

End Spawn.

(** * Properties *)

Import Termios.
Import Spawn.

(** ** Bit flags *)

Lemma has_flag_here (a f : Z) : has_flag (Z.lor a f) f.
Proof.
unfold has_flag. apply Z.bits_inj'. intros n _.
rewrite Z.land_spec, Z.lor_spec. destruct (Z.testbit a n), (Z.testbit f n); reflexivity.
Qed.

Lemma has_flag_left (a b f : Z) : has_flag a f -> has_flag (Z.lor a b) f.
Proof.
unfold has_flag. intros H. apply Z.bits_inj'. intros n _.
rewrite Z.land_spec, Z.lor_spec.
assert (Hn : Z.testbit (Z.land a f) n = Z.testbit f n) by (rewrite H; reflexivity).
rewrite Z.land_spec in Hn.
destruct (Z.testbit a n), (Z.testbit b n), (Z.testbit f n); simpl in *; congruence.
Qed.

(** ** The terminal mode *)

Section TerminalMode.
Variable p : Termios.abi.
Hypothesis p_ok : Termios.abi_ok p.

(** Reading back the slot an assignment wrote, over the assignments
    that follow it. *)
Ltac read_slot :=
  repeat (rewrite list_lookup_insert_ne; [| congruence]);
  rewrite list_lookup_insert_eq;
  [ reflexivity | rewrite ?length_insert, repeat_length; assumption ].

Lemma default_cc :
  let cc := c_cc (default_termios p) in
  cc !! VINTR p = Some 3 /\ cc !! VQUIT p = Some 28 /\
  cc !! VERASE p = Some 127 /\ cc !! VKILL p = Some 21 /\
  cc !! VEOF p = Some 4 /\ cc !! VSTOP p = Some 19 /\
  cc !! VSUSP p = Some 26 /\ cc !! VSTART p = Some 17 /\
  cc !! VMIN p = Some 1 /\ cc !! VTIME p = Some 0.
Proof using p_ok.
  destruct p_ok as [Hnd Hin]. unfold slots in Hnd, Hin.
  rewrite !NoDup_cons, !not_elem_of_cons in Hnd.
  rewrite !Forall_cons in Hin.
  destruct_and!.
  unfold default_termios; simpl c_cc.
  repeat split; read_slot.
Qed.

Lemma default_lflag :
  has_flag (c_lflag (default_termios p)) (ICANON p) /\
  has_flag (c_lflag (default_termios p)) (ECHO p).
Proof.
  unfold default_termios; simpl c_lflag. split.
  - do 5 apply has_flag_left. apply has_flag_here.
  - do 4 apply has_flag_left. apply has_flag_here.
Qed.

End TerminalMode.

Lemma linux_termios_ok : Termios.abi_ok Termios.linux.
Proof.
  split.
  - unfold slots; simpl. rewrite !NoDup_cons, !not_elem_of_cons.
    repeat split; first [ lia | apply not_elem_of_nil | apply NoDup_nil_2 ].
  - unfold slots; simpl. repeat (apply Forall_cons; split; [lia|]). apply Forall_nil_2.
Qed.

(** ** Reaping *)

Lemma land_255 (x : Z) : Z.land x 0xff = x mod 256.
Proof. change 0xff with (Z.ones 8). rewrite Z.land_ones by lia. reflexivity. Qed.

Lemma land_127 (x : Z) : Z.land x 0x7f = x mod 128.
Proof. change 0x7f with (Z.ones 7). rewrite Z.land_ones by lia. reflexivity. Qed.

Lemma linux_exit_byte (st : Z) :
  Z.shiftr (Z.land st 0xff00) 8 = (st / 256) mod 256.
Proof.
  rewrite Z.shiftr_land. change (Z.shiftr 0xff00 8) with 0xff.
  rewrite land_255, Z.shiftr_div_pow2 by lia. reflexivity.
Qed.

Lemma linux_wait_ok : Wait.abi_ok Wait.linux.
Proof.
  split; simpl.
  - intros c. apply Z.eqb_eq.
    rewrite land_127, land_255, Z.shiftl_mul_pow2 by lia.
    change (2 ^ 8) with (2 * 128). rewrite Z.mul_assoc. apply Z_mod_mult.
  - intros c. rewrite linux_exit_byte, land_255, Z.shiftl_mul_pow2 by lia.
    change (2 ^ 8) with 256. rewrite Z_div_mult by lia.
    apply Z.mod_mod. lia.
  - intros t Hok Hne. apply Z.eqb_neq. destruct t as [c | sig core | sig | ]; simpl in *.
    + exfalso. exact (Hne c eq_refl).
    + unfold Wait.sig_ok in Hok.
      rewrite Z.land_lor_distr_l, <- Z.land_assoc. change (Z.land 127 127) with 127.
      replace (Z.land (if core then 128 else 0) 127) with 0 by (destruct core; reflexivity).
      rewrite Z.lor_0_r, land_127, Z.mod_small; lia.
    + rewrite (has_flag_here _ 127). lia.
    + discriminate.
  - intros st. rewrite linux_exit_byte.
    pose proof (Z.mod_pos_bound (st / 256) 256). lia.
Qed.

(** C2.  When [waitpid] reports a state change, storing the status
    [st]: [waitFor] returns the exit code of a child that terminated
    normally (the code itself when it is one of 0..255), and -1 for a
    child that was signalled, stopped or continued and for any status
    the macros do not classify as a normal exit; a result of -1 never
    comes from a normal exit. *)
Theorem waitFor_decodes_status
  (p : Wait.abi) (waitpid : Z -> Z -> Wait.waited) (garbage pid st : Z) :
  Wait.abi_ok p ->
  Wait.wstored (waitpid pid 0) = Some st ->
  let result := Wait.waitFor p waitpid garbage pid in
  (forall c, st = Wait.wstatus p (Wait.Exited c) ->
     result = c mod 256 /\ (0 <= c <= 255 -> result = c)) /\
  (forall t, Wait.termination_ok t -> (forall c, t <> Wait.Exited c) ->
     st = Wait.wstatus p t -> result = -1) /\
  (Wait.WIFEXITED p st = false -> result = -1) /\
  (Wait.WIFEXITED p st = true -> result = Wait.WEXITSTATUS p st /\ result <> -1).
Proof.
  intros Hok Hst result. subst result. unfold Wait.waitFor. rewrite Hst.
  split; [| split; [| split]].
  - intros c ->. rewrite (Wait.exited_true p Hok), (Wait.exited_code p Hok).
    split; [reflexivity |]. intros Hc. apply Z.mod_small. lia.
  - intros t Ht Hne ->. rewrite (Wait.other_false p Hok t Ht Hne). reflexivity.
  - intros ->. reflexivity.
  - intros ->. split; [reflexivity |].
    pose proof (Wait.code_range p Hok st). lia.
Qed.

(** A child that exits with code 7, reaped on Linux. *)
Lemma waitFor_decodes_status_witness :
  let waitpid := fun (_ _ : Z) => {| Wait.wret := 4321; Wait.wstored := Some 0x700 |} in
  Wait.wstored (waitpid 4321 0) = Some 0x700 /\
  Wait.waitFor Wait.linux waitpid 0 4321 = 7.
Proof.
  intros waitpid. split; [reflexivity |].
  pose proof (waitFor_decodes_status Wait.linux waitpid 0 4321 0x700
                linux_wait_ok eq_refl) as [Hexit _].
  destruct (Hexit 7 eq_refl) as [_ H]. apply H. lia.
Defined.

(** C7.  [waitpid] fails for a process that is not a child of the
    caller: it returns -1 and stores nothing.  [waitFor] then decodes
    whatever [status] held: with 0 there it reports a normal exit with
    code 0, with 0x700 a normal exit with code 7; only if the low
    seven bits happen not to be zero does it return -1.  The value
    [waitpid] returned plays no part. *)
Theorem waitFor_decodes_indeterminate_status :
  let failed := fun (_ _ : Z) => {| Wait.wret := -1; Wait.wstored := None |} in
  Wait.waitFor Wait.linux failed 0 99999 = 0 /\
  Wait.waitFor Wait.linux failed 0x700 99999 = 7 /\
  Wait.waitFor Wait.linux failed 0x0b 99999 = -1 /\
  (forall garbage ret,
     Wait.waitFor Wait.linux
       (fun _ _ => {| Wait.wret := ret; Wait.wstored := None |}) garbage 99999
     = if Wait.WIFEXITED Wait.linux garbage
       then Wait.WEXITSTATUS Wait.linux garbage else -1).
Proof.
  simpl. repeat split.
Qed.

(** ** Spawning: control *)

Section Control.
Variable P : platform.

Lemma bind_val {A B} (m : M A) (k : A -> M B) s a s' :
  m s = (Val a, s') -> bind m k s = k a s'.
Proof. intros H. unfold bind. rewrite H. reflexivity. Qed.

Lemma bind_halt {A B} (m : M A) (k : A -> M B) s o s' :
  m s = (Halt o, s') -> bind m k s = (Halt o, s').
Proof. intros H. unfold bind. rewrite H. reflexivity. Qed.

Lemma within_ret ok stops {A} (a : A) : within ok stops (ret a).
Proof. intros s. exists []. simpl. rewrite app_nil_r. auto. Qed.

Lemma within_halt ok (stops : outcome -> Prop) {A} o :
  stops o -> within ok stops (@halt A o).
Proof. intros H s. exists []. simpl. rewrite app_nil_r. auto. Qed.

Lemma within_emit ok stops e : ok e = true -> within ok stops (emit e).
Proof. intros H s. exists [e]. simpl. rewrite H. auto. Qed.

Lemma within_bind ok stops {A B} (m : M A) (k : A -> M B) :
  within ok stops m -> (forall a, within ok stops (k a)) -> within ok stops (bind m k).
Proof.
  intros Hm Hk s. destruct (Hm s) as (t1 & Ht1 & Hok1 & Hos1 & Hst1).
  unfold bind. destruct (m s) as [[a | o] s1]; simpl in *.
  - destruct (Hk a s1) as (t2 & Ht2 & Hok2 & Hos2 & Hst2).
    exists (t1 ++ t2). rewrite Ht2, Ht1, Hos2, Hos1, forallb_app, Hok1, Hok2, app_assoc.
    auto.
  - exists t1. auto.
Qed.

Lemma within_allocate ok stops b : within ok stops (allocate P b).
Proof.
  intros s. exists []. unfold allocate.
  destruct (heap_gives P (asked s)); simpl; rewrite app_nil_r; auto.
Qed.

Lemma within_release ok stops q : within ok stops (release q).
Proof. intros s. exists []. destruct q; simpl; rewrite app_nil_r; auto. Qed.

Lemma within_load_chars ok (stops : outcome -> Prop) q :
  stops Undefined -> within ok stops (load_chars q).
Proof.
  intros H s. exists []. unfold load_chars.
  destruct q as [| a]; simpl; [rewrite app_nil_r; auto |].
  destruct (heap s !! a) as [[str | cells] |]; simpl; rewrite app_nil_r; auto.
Qed.

Lemma within_store ok (stops : outcome -> Prop) vec i x :
  stops Undefined -> within ok stops (store vec i x).
Proof.
  intros H s. exists []. unfold store.
  destruct vec as [| a]; simpl; [rewrite app_nil_r; auto |].
  destruct (heap s !! a) as [[str | cells] |]; simpl; [rewrite app_nil_r; auto | | rewrite app_nil_r; auto].
  destruct (i <? length cells)%nat; simpl; rewrite app_nil_r; auto.
Qed.

Lemma within_load ok (stops : outcome -> Prop) vec i :
  stops Undefined -> within ok stops (load vec i).
Proof.
  intros H s. exists []. unfold load.
  destruct vec as [| a]; simpl; [rewrite app_nil_r; auto |].
  destruct (heap s !! a) as [[str | cells] |]; simpl; [rewrite app_nil_r; auto | | rewrite app_nil_r; auto].
  destruct (cells !! i) as [[| x] |]; simpl; rewrite app_nil_r; auto.
Qed.

Lemma within_for_loop ok stops body :
  (forall i, within ok stops (body i)) ->
  forall count start, within ok stops (for_loop start count body).
Proof.
  intros Hbody. induction count as [| count IH]; intros start; simpl.
  - apply within_ret.
  - apply within_bind; [apply Hbody | intros _; apply IH].
Qed.

Lemma marshal_entry_within arr vec i :
  within marshal_op (eq Undefined) (marshal_entry P arr vec i).
Proof.
  unfold marshal_entry, GetObjectArrayElement, GetStringUTFChars, strdup,
    ReleaseStringUTFChars.
  repeat first
    [ apply within_bind; [| intros ? ]
    | apply within_emit; reflexivity
    | apply within_allocate
    | apply within_release
    | apply within_load_chars; reflexivity
    | apply within_store; reflexivity ].
  destruct (arr !! i); [apply within_ret | apply within_halt; reflexivity].
Qed.

Lemma marshal_within arr : within marshal_op (eq Undefined) (marshal P arr).
Proof.
  unfold marshal, GetArrayLength, malloc.
  repeat first
    [ apply within_bind; [| intros ? ]
    | apply within_emit; reflexivity
    | apply within_ret
    | apply within_allocate
    | apply within_store; reflexivity
    | apply within_for_loop; intros ?; apply marshal_entry_within ].
Qed.

End Control.

(** ** Spawning: the child branch *)

Section Child.
Variable P : platform.

Lemma ends_in_exec_bind {A B} (m : M A) (k : A -> M B) :
  within marshal_op (eq Undefined) m ->
  (forall a, ends_in_exec P (k a)) ->
  ends_in_exec P (bind m k).
Proof.
  intros Hm Hk s. destruct (Hm s) as (t1 & Ht1 & Hok1 & Hos1 & Hst1).
  unfold bind. destruct (m s) as [[a | o] s1]; simpl in *.
  - destruct (Hk a s1) as (t2 & Hok2 & Hos2 & Hcases).
    exists (t1 ++ t2).
    split; [rewrite forallb_app, Hok1, Hok2; reflexivity |].
    split; [congruence |].
    destruct Hcases as [[Ht Hr] | [(f & av & ev & Ht & He & Hr) | (f & av & ev & Ht & He & Hr)]];
      rewrite Ht1 in Ht.
    + left. rewrite Ht, <- app_assoc. auto.
    + right; left. exists f, av, ev. rewrite Ht, <- !app_assoc. auto.
    + right; right. exists f, av, ev. rewrite Ht, <- !app_assoc. auto.
  - exists t1. subst o. auto.
Qed.

Lemma exec_ends_in_exec file argv envp :
  ends_in_exec P
    (sys_execvpe P file argv envp ;; LOGE "execvpe failed" ;; exit 1 : M (option (Z * Z))).
Proof.
  intros s. exists []. unfold bind, sys_execvpe. simpl app.
  set (f := match file with
            | NULL => Some None
            | Ptr a => match heap s !! a with
                       | Some (Chars str) => Some (Some (c_str str))
                       | _ => None
                       end
            end).
  split; [reflexivity |].
  destruct f as [f |]; [| simpl; rewrite app_nil_r; auto].
  destruct (vector_strings (heap s) argv) as [av |]; [| simpl; rewrite app_nil_r; auto].
  destruct (vector_strings (heap s) envp) as [ev |]; [| simpl; rewrite app_nil_r; auto].
  destruct (execvpe P f av ev) eqn:He; simpl.
  - split; [reflexivity |]. right; left. exists f, av, ev. auto.
  - split; [reflexivity |]. right; right. exists f, av, ev.
    rewrite <- !app_assoc. auto.
Qed.

Lemma child_exec_ends_in_exec cmd env : ends_in_exec P (child_exec P cmd env).
Proof.
  unfold child_exec.
  apply ends_in_exec_bind; [apply marshal_within | intros envp].
  apply ends_in_exec_bind; [apply marshal_within | intros argv].
  apply ends_in_exec_bind; [apply within_load; reflexivity | intros argv0].
  apply exec_ends_in_exec.
Qed.

(** The first part of the child: with a working directory the kernel
    accepts it goes on to the marshalling; otherwise it logs and
    exits with status 1, having made no other call. *)
Lemma child_chdir_shape wd s :
  os (child_chdir P wd s).2 = os s /\
  if chdir_returns P wd s =? 0
  then (child_chdir P wd s).1 = Val tt /\
       trace (child_chdir P wd s).2
       = trace s ++ [OpGetStringUTFChars; OpChdir; OpReleaseStringUTFChars]
  else (child_chdir P wd s).1 = Halt (ProcessExited 1) /\
       trace (child_chdir P wd s).2
       = trace s ++ [OpGetStringUTFChars; OpChdir; OpLog "chdir to %s failed"; OpExit 1].
Proof.
  unfold child_chdir, chdir_returns, GetStringUTFChars, sys_chdir, bind, emit, allocate.
  simpl. destruct (heap_gives P (asked s)); simpl.
  - rewrite lookup_insert_eq. simpl.
    destruct (chdir P (c_str wd) =? 0); simpl; rewrite <- !app_assoc; auto.
  - rewrite <- !app_assoc. auto.
Qed.

End Child.

(** ** Spawning: marshalling with all memory granted *)

Section Marshal.
Variable P : platform.
Hypothesis all_given : forall k, heap_gives P k = true.

Lemma wf_fresh s a : heap_wf s -> (brk s <= a)%positive -> heap s !! a = None.
Proof.
  intros Hwf Hle. destruct (heap s !! a) eqn:E; [| reflexivity].
  assert (a < brk s)%positive by (apply Hwf; rewrite E; eauto). lia.
Qed.

Lemma wf_below s a b : heap_wf s -> heap s !! a = Some b -> (a < brk s)%positive.
Proof. intros Hwf E. apply Hwf. rewrite E. eauto. Qed.

(** One turn of the loop: the characters are fetched into a buffer at
    the allocator's mark, copied into a block of their own right above
    it, the copy is stored in the vector and the buffer released. *)
Lemma marshal_entry_ok arr v i j cells s :
  heap_wf s -> arr !! i = Some j ->
  heap s !! v = Some (Vector cells) -> (i < length cells)%nat ->
  let b := brk s in
  let a := Pos.succ (brk s) in
  exists s', marshal_entry P arr (Ptr v) i s = (Val tt, s') /\
    brk s' = Pos.succ a /\ os s' = os s /\
    heap s' = delete b (<[v := Vector (<[i := Stored (Ptr a)]> cells)]>
                          (<[a := Chars (c_str j)]> (<[b := Chars j]> (heap s)))).
Proof.
  intros Hwf Harr Hv Hi b a.
  assert (Hvb : (v < b)%positive) by (eapply wf_below; eauto).
  unfold marshal_entry, GetObjectArrayElement, GetStringUTFChars, strdup,
    ReleaseStringUTFChars, bind, emit, allocate, load_chars, store, release, ret.
  rewrite Harr. simpl. rewrite !all_given. simpl.
  rewrite lookup_insert_eq. rewrite all_given. simpl.
  rewrite lookup_insert_ne by (fold b; lia).
  rewrite lookup_insert_ne by (fold b; lia).
  rewrite Hv. apply Nat.ltb_lt in Hi. rewrite Hi. simpl.
  eexists. split; [reflexivity |]. simpl. auto.
Qed.

(** The heap one turn of the loop leaves, read at each address. *)
Lemma entry_heap (h : gmap positive block) v a b V C T :
  v <> a -> v <> b -> a <> b -> h !! b = None ->
  let h' := delete b (<[v := V]> (<[a := C]> (<[b := T]> h))) in
  h' !! v = Some V /\ h' !! a = Some C /\
  (forall x, x <> v -> x <> a -> h' !! x = h !! x).
Proof.
  intros Hva Hvb Hab Hb h'. subst h'. repeat split.
  - rewrite lookup_delete_ne by congruence. apply lookup_insert_eq.
  - rewrite lookup_delete_ne by congruence.
    rewrite lookup_insert_ne by congruence. apply lookup_insert_eq.
  - intros x Hxv Hxa. destruct (decide (x = b)) as [-> | Hxb].
    + rewrite lookup_delete_eq. symmetry. exact Hb.
    + rewrite lookup_delete_ne by congruence.
      rewrite !lookup_insert_ne by congruence. reflexivity.
Qed.

Lemma marshal_loop_ok arr v : forall n i s done,
  heap_wf s ->
  heap s !! v = Some (Vector (done ++ repeat Uninit (n + 1))) ->
  length done = i -> (i + n)%nat = length arr ->
  exists s' addrs,
    for_loop i n (marshal_entry P arr (Ptr v)) s = (Val tt, s') /\
    heap s' !! v = Some (Vector (done ++ map (fun a => Stored (Ptr a)) addrs ++ [Uninit])) /\
    length addrs = n /\
    (forall k a, addrs !! k = Some a ->
       exists j, arr !! (i + k)%nat = Some j /\ heap s' !! a = Some (Chars (c_str j))) /\
    NoDup addrs /\
    (forall a, a ∈ addrs -> (brk s <= a)%positive) /\
    (forall x, x <> v -> x ∉ addrs -> heap s' !! x = heap s !! x) /\
    heap_wf s' /\ (brk s <= brk s')%positive /\ os s' = os s.
Proof.
  induction n as [| n IH]; intros i s done Hwf Hv Hlen Hsum.
  - exists s, []. simpl. repeat split; auto.
    + intros k a Hk. rewrite lookup_nil in Hk. discriminate.
    + apply NoDup_nil_2.
    + intros a Ha. apply elem_of_nil in Ha. contradiction.
    + lia.
  - assert (Hj : is_Some (arr !! i)) by (apply lookup_lt_is_Some; lia).
    destruct Hj as [j Hj].
    assert (Hi : (i < length (done ++ repeat Uninit (S n + 1)))%nat)
      by (rewrite length_app, repeat_length; lia).
    destruct (marshal_entry_ok arr v i j _ s Hwf Hj Hv Hi) as (s1 & Hrun & Hbrk & Hos & Hheap).
    set (b := brk s) in *. set (a := Pos.succ b) in *.
    assert (Hvb : (v < b)%positive) by (eapply wf_below; eauto).
    assert (Hfresh : heap s !! b = None) by (apply wf_fresh; [assumption | subst b; lia]).
    destruct (entry_heap (heap s) v a b
                (Vector (<[i := Stored (Ptr a)]> (done ++ repeat Uninit (S n + 1))))
                (Chars (c_str j)) (Chars j)) as (H1v & H1a & H1x);
      [subst a; lia | lia | subst a; lia | assumption |].
    rewrite <- Hheap in H1v, H1a, H1x.
    assert (Hwf1 : heap_wf s1).
    { intros x [blk Hx]. rewrite Hbrk.
      destruct (decide (x = v)) as [-> | Hxv]; [subst a; lia |].
      destruct (decide (x = a)) as [-> | Hxa]; [lia |].
      rewrite H1x in Hx by assumption.
      assert (x < b)%positive by (eapply wf_below; eauto). subst a; lia. }
    assert (Hcells : <[i := Stored (Ptr a)]> (done ++ repeat Uninit (S n + 1))
                     = (done ++ [Stored (Ptr a)]) ++ repeat Uninit (n + 1)).
    { subst i. replace (length done) with (length done + 0)%nat by lia.
      rewrite insert_app_r. simpl. rewrite <- app_assoc. reflexivity. }
    rewrite Hcells in H1v.
    destruct (IH (S i) s1 (done ++ [Stored (Ptr a)]) Hwf1 H1v) as
      (s' & addrs & Hloop & Hv' & Hlen' & Hcopies & Hnd & Hge & Hframe & Hwf' & Hmono & Hos');
      [rewrite length_app; simpl; lia | lia |].
    assert (Ha_notin : a ∉ addrs).
    { intros Hin. apply Hge in Hin. rewrite Hbrk in Hin. lia. }
    exists s', (a :: addrs). repeat split.
    + simpl. unfold bind. rewrite Hrun. exact Hloop.
    + rewrite Hv'. simpl. rewrite <- app_assoc. reflexivity.
    + simpl. lia.
    + intros k x Hk. destruct k as [| k]; simpl in Hk.
      * injection Hk as <-. exists j. split; [rewrite Nat.add_0_r; assumption |].
        rewrite Hframe by (first [subst a; lia | assumption]). exact H1a.
      * destruct (Hcopies k x Hk) as (j' & Hj' & Hx). exists j'.
        split; [| assumption]. rewrite <- Hj'. f_equal. lia.
    + apply NoDup_cons. split; assumption.
    + intros x Hx. apply elem_of_cons in Hx as [-> | Hx]; [subst a; lia |].
      apply Hge in Hx. rewrite Hbrk in Hx. subst a. lia.
    + intros x Hxv Hx. apply not_elem_of_cons in Hx as [Hxa Hx].
      rewrite Hframe by assumption. apply H1x; assumption.
    + exact Hwf'.
    + rewrite Hbrk in Hmono. subst a. lia.
    + congruence.
Qed.

Lemma malloc_given n s :
  malloc P n s
  = (Val (Ptr (brk s)),
     {| os := os s; heap := <[brk s := Vector (repeat Uninit n)]> (heap s);
        brk := Pos.succ (brk s); asked := S (asked s);
        trace := trace s ++ [OpMalloc] |}).
Proof. unfold malloc, bind, emit, allocate. simpl. rewrite all_given. reflexivity. Qed.

Lemma store_ok v i x cells s :
  heap s !! v = Some (Vector cells) -> (i < length cells)%nat ->
  store (Ptr v) i x s
  = (Val tt, set_heap (<[v := Vector (<[i := Stored x]> cells)]> (heap s)) s).
Proof.
  intros Hv Hi. unfold store. rewrite Hv. apply Nat.ltb_lt in Hi. rewrite Hi. reflexivity.
Qed.

(** The marshalling of an array: a vector of one cell more than the
    array has elements, each cell but the last pointing to a block of
    its own that holds the characters of the element, the last cell
    null; nothing else in the heap has changed. *)
Lemma marshal_ok arr s :
  heap_wf s ->
  exists v addrs s',
    marshal P arr s = (Val (Ptr v), s') /\
    heap s' !! v = Some (Vector (map (fun a => Stored (Ptr a)) addrs ++ [Stored NULL])) /\
    length addrs = length arr /\
    (forall k a, addrs !! k = Some a ->
       exists j, arr !! k = Some j /\ heap s' !! a = Some (Chars (c_str j))) /\
    NoDup (v :: addrs) /\
    (forall a, a ∈ v :: addrs -> heap s !! a = None) /\
    (forall x, x ∉ v :: addrs -> heap s' !! x = heap s !! x) /\
    heap_wf s' /\ os s' = os s /\
    exists t, trace s' = trace s ++ t /\ forallb marshal_op t = true.
Proof.
  intros Hwf.
  destruct (marshal_within P arr s) as (t & Htrace & Hops & _ & _).
  revert Htrace. unfold marshal.
  rewrite (bind_val _ _ s (length arr) (record_op OpGetArrayLength s)) by reflexivity.
  set (s0 := record_op OpGetArrayLength s).
  rewrite (bind_val _ _ s0 _ _ (malloc_given _ s0)).
  set (v := brk s0).
  set (s1 := {| os := os s0; heap := <[v := Vector (repeat Uninit (length arr + 1))]> (heap s0);
                brk := Pos.succ v; asked := S (asked s0); trace := trace s0 ++ [OpMalloc] |}).
  assert (Hfresh : heap s !! v = None) by (apply wf_fresh; [assumption | subst v; simpl; lia]).
  assert (Hwf1 : heap_wf s1).
  { intros x [blk Hx]. simpl in *. destruct (decide (x = v)) as [-> | Hxv]; [lia |].
    rewrite lookup_insert_ne in Hx by congruence.
    assert (x < brk s)%positive by (eapply wf_below; eauto). subst v; simpl; lia. }
  destruct (marshal_loop_ok arr v (length arr) 0 s1 [] Hwf1) as
    (s2 & addrs & Hloop & Hv2 & Hlen & Hcopies & Hnd & Hge & Hframe & Hwf2 & Hmono & Hos2);
    [simpl; apply lookup_insert_eq | reflexivity | reflexivity |].
  simpl in Hv2.
  rewrite (bind_val _ _ s1 _ _ Hloop).
  assert (Hlast : (length arr < length (map (fun a => Stored (Ptr a)) addrs ++ [Uninit]))%nat)
    by (rewrite length_app, length_map; simpl; lia).
  rewrite (bind_val _ _ s2 _ _ (store_ok v (length arr) NULL _ s2 Hv2 Hlast)).
  unfold ret. simpl. intros Htrace.
  assert (Hv_notin : v ∉ addrs).
  { intros Hin. apply Hge in Hin. simpl in Hin. lia. }
  eexists v, addrs, _. split; [reflexivity |]. simpl. repeat split.
  - rewrite lookup_insert_eq. do 2 f_equal.
    replace (length arr) with (length (map (fun a => Stored (Ptr a)) addrs) + 0)%nat
      by (rewrite length_map; lia).
    rewrite insert_app_r. reflexivity.
  - exact Hlen.
  - intros k a Hk. destruct (Hcopies k a Hk) as (j & Hj & Ha). exists j.
    split; [exact Hj |].
    rewrite lookup_insert_ne; [exact Ha |].
    intros ->. apply Hv_notin. apply list_elem_of_lookup. eauto.
  - apply NoDup_cons. split; assumption.
  - intros a Ha. apply elem_of_cons in Ha as [-> | Ha]; [exact Hfresh |].
    apply Hge in Ha. simpl in Ha. apply wf_fresh; [assumption | subst v; simpl in *; lia].
  - intros x Hx. apply not_elem_of_cons in Hx as [Hxv Hx].
    rewrite lookup_insert_ne by congruence.
    rewrite Hframe by assumption. simpl. apply lookup_insert_ne. congruence.
  - intros x [blk Hx]. simpl in *. destruct (decide (x = v)) as [-> | Hxv].
    + lia.
    + rewrite lookup_insert_ne in Hx by congruence. eapply wf_below; eauto.
  - exact Hos2.
  - exists t. split; assumption.
Qed.

End Marshal.

(** ** Spawning: what the child hands to [execvpe] *)

Lemma c_str_idem (j : string) : c_str (c_str j) = c_str j.
Proof.
  induction j as [| c j IH]; simpl; [reflexivity |].
  destruct (Ascii.eqb c zero) eqn:E; simpl; [reflexivity |].
  rewrite E, IH. reflexivity.
Qed.

Lemma c_str_no_nul (j : string) : has_nul j = false -> c_str j = j.
Proof.
  induction j as [| c j IH]; simpl; [reflexivity |].
  intros H. apply orb_false_iff in H as [Hc Hj]. rewrite Hc, IH by assumption. reflexivity.
Qed.

Lemma strings_of_copies (h : gmap positive block) :
  forall (addrs : list positive) (arr : list string),
  length addrs = length arr ->
  (forall k a, addrs !! k = Some a ->
     exists j, arr !! k = Some j /\ h !! a = Some (Chars (c_str j))) ->
  strings_until_null h (map (fun a => Stored (Ptr a)) addrs ++ [Stored NULL])
  = Some (map c_str arr).
Proof.
  induction addrs as [| a addrs IH]; intros arr Hlen Hcopies.
  - destruct arr; [reflexivity | discriminate].
  - destruct arr as [| j arr]; [discriminate |]. simpl.
    destruct (Hcopies O a eq_refl) as (j' & Hj' & Ha). injection Hj' as <-.
    rewrite Ha, c_str_idem, (IH arr); [reflexivity | simpl in Hlen; lia |].
    intros k x Hk. exact (Hcopies (S k) x Hk).
Qed.

Section Program.
Variable P : platform.
Hypothesis all_given : forall k, heap_gives P k = true.

Lemma child_chdir_ok wd s :
  heap_wf s -> chdir P (c_str wd) = 0 ->
  exists s', child_chdir P wd s = (Val tt, s') /\ heap_wf s' /\ os s' = os s /\
    trace s' = trace s ++ [OpGetStringUTFChars; OpChdir; OpReleaseStringUTFChars].
Proof.
  intros Hwf Hgo.
  unfold child_chdir, GetStringUTFChars, sys_chdir, bind, emit, allocate.
  simpl. rewrite all_given. simpl. rewrite lookup_insert_eq. simpl. rewrite Hgo. simpl.
  eexists. split; [reflexivity |]. simpl. repeat split.
  - intros x [blk Hx]. simpl in *.
    destruct (decide (x = brk s)) as [-> | Hne]; [lia |].
    rewrite lookup_delete_ne, lookup_insert_ne in Hx by congruence.
    assert (x < brk s)%positive by (eapply wf_below; eauto). lia.
  - rewrite <- !app_assoc. reflexivity.
Qed.

(** With all memory granted, the second part of the child hands
    [execvpe] the first command string as the file, the command
    strings as the argument vector and the environment strings as the
    environment, and ends as [execvpe] decides. *)
Lemma child_exec_ok cmd env s :
  heap_wf s ->
  let file := c_str <$> head cmd in
  let av := map c_str cmd in
  let ev := map c_str env in
  exists s' t, forallb marshal_op t = true /\ os s' = os s /\
    if execvpe P file av ev
    then child_exec P cmd env s = (Halt (ImageReplaced file av ev), s') /\
         trace s' = trace s ++ t ++ [OpExecvpe file av ev]
    else child_exec P cmd env s = (Halt (ProcessExited 1), s') /\
         trace s' = trace s ++ t ++ [OpExecvpe file av ev; OpLog "execvpe failed"; OpExit 1].
Proof.
  intros Hwf file av ev.
  destruct (marshal_ok P all_given env s Hwf) as
    (v1 & addrs1 & s1 & Hrun1 & Hv1 & Hlen1 & Hcopies1 & _ & _ & _ & Hwf1 & Hos1 & t1 & Ht1 & Hops1).
  destruct (marshal_ok P all_given cmd s1 Hwf1) as
    (v2 & addrs2 & s2 & Hrun2 & Hv2 & Hlen2 & Hcopies2 & _ & Hnew2 & Hframe2 & _ & Hos2 & t2 & Ht2 & Hops2).
  assert (Hkept : forall x blk, heap s1 !! x = Some blk -> heap s2 !! x = Some blk).
  { intros x blk Hx. rewrite Hframe2; [exact Hx |].
    intros Hin. apply Hnew2 in Hin. congruence. }
  assert (Henv : vector_strings (heap s2) (Ptr v1) = Some ev).
  { subst ev. simpl. rewrite (Hkept _ _ Hv1). apply strings_of_copies; [exact Hlen1 |].
    intros k a Hk. destruct (Hcopies1 k a Hk) as (j & Hj & Ha). eauto. }
  assert (Hcmd : vector_strings (heap s2) (Ptr v2) = Some av).
  { subst av. simpl. rewrite Hv2. apply strings_of_copies; assumption. }
  assert (Hfile : exists q, load (Ptr v2) 0 s2 = (Val q, s2) /\
            match q with
            | NULL => Some None
            | Ptr a => match heap s2 !! a with
                       | Some (Chars str) => Some (Some (c_str str))
                       | _ => None
                       end
            end = Some file).
  { unfold load. rewrite Hv2. destruct addrs2 as [| a addrs2]; simpl.
    - destruct cmd; [| discriminate]. exists NULL. auto.
    - destruct (Hcopies2 O a eq_refl) as (j & Hj & Ha).
      exists (Ptr a). rewrite Ha, c_str_idem. split; [reflexivity |].
      subst file. destruct cmd as [| j' cmd]; [discriminate |].
      simpl in *. congruence. }
  destruct Hfile as (q & Hload & Hq).
  unfold child_exec.
  rewrite (bind_val _ _ s _ _ Hrun1), (bind_val _ _ s1 _ _ Hrun2), (bind_val _ _ s2 _ _ Hload).
  unfold bind, sys_execvpe. rewrite Hq, Henv, Hcmd.
  exists (if execvpe P file av ev
          then record_op (OpExecvpe file av ev) s2
          else record_op (OpExit 1) (record_op (OpLog "execvpe failed")
                 (record_op (OpExecvpe file av ev) s2))), (t1 ++ t2).
  split; [rewrite forallb_app, Hops1, Hops2; reflexivity |].
  destruct (execvpe P file av ev); simpl.
  - split; [congruence |]. split; [reflexivity |].
    rewrite Ht2, Ht1, <- !app_assoc. reflexivity.
  - split; [congruence |]. split; [reflexivity |].
    rewrite Ht2, Ht1, <- !app_assoc. reflexivity.
Qed.

End Program.

(** ** Spawning: the whole function *)

Section Whole.
Variable P : platform.

Local Abbreviation mode := (default_termios (termios_h P)).

Lemma within_weaken ok stops {A} (m : M A) :
  within ok stops m -> within any_op any_stop m.
Proof.
  intros Hm s. destruct (Hm s) as (t & Ht & _ & Hos & _).
  exists t. repeat split; auto.
  - clear. induction t; simpl; auto.
  - destruct (m s).1; exact I.
Qed.

Lemma sys_execvpe_within file argv envp :
  within any_op any_stop (sys_execvpe P file argv envp).
Proof.
  intros s. unfold sys_execvpe.
  destruct (match file with
            | NULL => Some None
            | Ptr a => match heap s !! a with
                       | Some (Chars str) => Some (Some (c_str str))
                       | _ => None
                       end
            end) as [f |]; [| exists []; simpl; rewrite app_nil_r; repeat split].
  destruct (vector_strings (heap s) argv) as [av |];
    [| exists []; simpl; rewrite app_nil_r; repeat split].
  destruct (vector_strings (heap s) envp) as [ev |];
    [| exists []; simpl; rewrite app_nil_r; repeat split].
  exists [OpExecvpe f av ev]. destruct (execvpe P f av ev); simpl; repeat split.
Qed.

Ltac any_call :=
  repeat first
    [ apply (within_weaken _ _ _ (marshal_within P _))
    | apply within_bind; [| intros ? ]
    | apply within_emit; reflexivity
    | apply within_ret
    | apply within_halt; exact I
    | apply within_allocate
    | apply within_release
    | apply within_load_chars; exact I
    | apply within_load; exact I
    | apply sys_execvpe_within ].

Lemma child_within cmd env wd : within any_op any_stop (child P cmd env wd).
Proof.
  unfold child, child_chdir, child_exec, GetStringUTFChars, sys_chdir,
    ReleaseStringUTFChars, LOGE, exit.
  any_call.
  - destruct a; any_call.
  - destruct (a0 =? 0); any_call.
Qed.

Lemma parent_within pid fd : within any_op any_stop (parent P pid fd).
Proof.
  unfold parent, NewIntArray, SetIntArrayRegion. any_call.
  destruct a; any_call.
Qed.

(** The function first calls [forkpty] with the fixed terminal mode
    and then follows one of its three branches, none of which touches
    the kernel state again. *)
Lemma createSubprocess_branches cmd env wd s pid fd o' :
  forkpty P mode (os s) = (pid, fd, o') ->
  let s1 := record_op (OpForkpty mode) (set_os o' s) in
  createSubprocess P cmd env wd s
  = if pid <? 0 then (Val None, record_op (OpLog "forkpty failed") s1)
    else if pid =? 0 then child P cmd env wd s1
    else parent P pid fd s1.
Proof.
  intros Hfork s1. unfold createSubprocess, bind, sys_forkpty.
  rewrite Hfork. fold s1.
  destruct (pid <? 0); [reflexivity |]. destruct (pid =? 0); reflexivity.
Qed.

Lemma createSubprocess_trace cmd env wd s :
  exists rest,
    trace (createSubprocess P cmd env wd s).2 = trace s ++ OpForkpty mode :: rest /\
    os (createSubprocess P cmd env wd s).2 = (forkpty P mode (os s)).2.
Proof.
  destruct (forkpty P mode (os s)) as [[pid fd] o'] eqn:Hfork.
  rewrite (createSubprocess_branches cmd env wd s pid fd o' Hfork). simpl.
  destruct (pid <? 0).
  - exists [OpLog "forkpty failed"]. simpl. rewrite <- app_assoc. auto.
  - destruct (pid =? 0).
    + destruct (child_within cmd env wd (record_op (OpForkpty mode) (set_os o' s)))
        as (t & Ht & _ & Hos & _).
      exists t. rewrite Ht, Hos. simpl. rewrite <- app_assoc. auto.
    + destruct (parent_within pid fd (record_op (OpForkpty mode) (set_os o' s)))
        as (t & Ht & _ & Hos & _).
      exists t. rewrite Ht, Hos. simpl. rewrite <- app_assoc. auto.
Qed.

End Whole.

(** ** The example platform *)

Lemma heap_wf_fresh o : heap_wf (fresh_state o).
Proof. intros a [blk Ha]. simpl in Ha. rewrite lookup_empty in Ha. discriminate. Qed.

Lemma android_contract k gives java_heap : forkpty_contract (android k gives java_heap).
Proof.
  intros mode o pid fd o' Hfork. simpl in Hfork. unfold libc_forkpty in Hfork.
  pose proof (is_fresh (open_fds o)) as Hpty.
  pose proof (is_fresh ({[fresh (open_fds o)]} ∪ open_fds o)) as Htty.
  pose proof (is_fresh (children o)) as Hpid.
  set (pty := fresh (open_fds o)) in *.
  set (tty := fresh ({[pty]} ∪ open_fds o)) in *.
  destruct (openpty_works k); [destruct (fork_gives k) |];
    injection Hfork as <- <- <-; split; intros Hsign; try lia.
  - destruct o as [fds kids]. simpl in *. f_equal.
    apply set_eq. intros x. rewrite !elem_of_difference, !elem_of_union, !elem_of_singleton.
    split; [tauto |]. intros Hx. repeat split.
    + auto.
    + intros ->. contradiction.
    + intros ->. apply Htty. apply elem_of_union. auto.
  - exists pty, (fresh (children o)). simpl. repeat split; try assumption.
    apply set_eq. intros x. rewrite !elem_of_difference, !elem_of_union, !elem_of_singleton.
    split; [tauto |]. intros Hx. split; [auto |].
    intros ->. apply Htty. apply elem_of_union. rewrite elem_of_singleton. tauto.
  - reflexivity.
Qed.

(** ** Claims about spawning *)

(** C8.  The terminal mode is built from nothing the caller passes:
    whatever the command, the environment, the working directory and
    the state, the first call of [createSubprocess] is [forkpty] with
    the one profile [default_termios].  In that profile the local flags
    have canonical mode and echo set, and the control characters are
    interrupt = 3 (Ctrl-C), quit = 28 (Ctrl-\), erase = 127 (DEL),
    kill = 21 (Ctrl-U), end-of-file = 4 (Ctrl-D), stop = 19 (Ctrl-S),
    suspend = 26 (Ctrl-Z), start = 17 (Ctrl-Q), minimum read count = 1
    and read timeout = 0. *)
Theorem terminal_mode_is_fixed_profile (P : platform) :
  Termios.abi_ok (termios_h P) ->
  let p := termios_h P in
  let mode := default_termios p in
  (forall cmd env wd s, exists rest,
     trace (run (createSubprocess P cmd env wd) s).2 = trace s ++ OpForkpty mode :: rest) /\
  has_flag (c_lflag mode) (ICANON p) /\ has_flag (c_lflag mode) (ECHO p) /\
  c_cc mode !! VINTR p = Some 0x03 /\ c_cc mode !! VQUIT p = Some 0x1c /\
  c_cc mode !! VERASE p = Some 0x7f /\ c_cc mode !! VKILL p = Some 0x15 /\
  c_cc mode !! VEOF p = Some 0x04 /\ c_cc mode !! VSTOP p = Some 0x13 /\
  c_cc mode !! VSUSP p = Some 0x1a /\ c_cc mode !! VSTART p = Some 0x11 /\
  c_cc mode !! VMIN p = Some 1 /\ c_cc mode !! VTIME p = Some 0.
Proof.
  intros Hok p mode. split; [| split; [| split]].
  - intros cmd env wd s.
    destruct (createSubprocess_trace P cmd env wd s) as (rest & Ht & _).
    exists rest. unfold run.
    destruct (createSubprocess P cmd env wd s) as [[r | o] s']; exact Ht.
  - apply default_lflag.
  - apply default_lflag.
  - exact (default_cc p Hok).
Qed.

Lemma terminal_mode_is_fixed_profile_witness :
  let P := android {| openpty_works := true; fork_gives := InParent |} (fun _ => true) true in
  Termios.abi_ok (termios_h P) /\
  has_flag (c_lflag (default_termios (termios_h P))) 0x2 /\
  c_cc (default_termios (termios_h P)) !! 0%nat = Some 0x03.
Proof.
  intros P. split; [exact linux_termios_ok |].
  pose proof (terminal_mode_is_fixed_profile P linux_termios_ok) as H.
  simpl in H. destruct H as (_ & Hcanon & _ & Hintr & _).
  split; [exact Hcanon | exact Hintr].
Defined.

(** C5.  When [forkpty] fails, [createSubprocess] logs and returns
    NULL at once; given that [forkpty] leaves no child and no open
    descriptor behind on failure, the process has afterwards the
    descriptors and children it had before, and its native heap is
    unchanged: the function itself opens and allocates nothing on this
    path. *)
Theorem forkpty_failure_returns_null_without_leak
  (P : platform) (cmd env : list string) (wd : string) (s : state)
  (pid fd : Z) (o' : os_state) :
  forkpty_contract P ->
  forkpty P (default_termios (termios_h P)) (os s) = (pid, fd, o') ->
  pid < 0 ->
  let r := run (createSubprocess P cmd env wd) s in
  r.1 = Returned None /\
  open_fds (os r.2) = open_fds (os s) /\
  children (os r.2) = children (os s) /\
  heap r.2 = heap s /\
  trace r.2 = trace s ++ [OpForkpty (default_termios (termios_h P)); OpLog "forkpty failed"].
Proof.
  intros Hcontract Hfork Hneg r. subst r. unfold run.
  rewrite (createSubprocess_branches P cmd env wd s pid fd o' Hfork).
  destruct (proj1 (Hcontract _ _ _ _ _ Hfork) Hneg).
  apply Z.ltb_lt in Hneg. rewrite Hneg. simpl.
  rewrite <- app_assoc. auto.
Qed.

(** [openpty] has opened both sides when [fork] fails. *)
Lemma forkpty_failure_returns_null_without_leak_witness :
  let P := android {| openpty_works := true; fork_gives := ForkFails |} (fun _ => true) true in
  let r := run (createSubprocess P ["/bin/echo"; "hello"]%string [] "/"%string) app_process in
  forkpty_contract P /\
  forkpty P (default_termios (termios_h P)) (os app_process)
    = (-1, 0, {| open_fds := (({[4%nat]} ∪ ({[3%nat]} ∪ {[0%nat; 1%nat; 2%nat]})) ∖ {[3%nat]}) ∖ {[4%nat]};
                 children := ∅ |}) /\
  -1 < 0 /\
  r.1 = Returned None /\
  open_fds (os r.2) = {[0%nat; 1%nat; 2%nat]} /\
  children (os r.2) = ∅.
Proof.
  intros P r.
  assert (Hfork : forkpty P (default_termios (termios_h P)) (os app_process)
    = (-1, 0, {| open_fds := (({[4%nat]} ∪ ({[3%nat]} ∪ {[0%nat; 1%nat; 2%nat]})) ∖ {[3%nat]}) ∖ {[4%nat]};
                 children := ∅ |})) by reflexivity.
  split; [apply android_contract |]. split; [exact Hfork |]. split; [lia |].
  pose proof (forkpty_failure_returns_null_without_leak P ["/bin/echo"; "hello"]%string [] "/"%string
                app_process _ _ _ (android_contract _ _ _) Hfork ltac:(lia)) as H.
  destruct H as (Hr & Hfds & Hkids & _). auto.
Defined.

(** C10.  When [forkpty] has returned in the parent and the result
    array cannot be allocated, [createSubprocess] returns NULL, the
    result it also gives when [forkpty] failed; yet the child exists
    and the master descriptor is open, neither of which was there
    before the call. *)
Theorem null_result_with_live_child
  (P : platform) (cmd env : list string) (wd : string) (s : state)
  (pid fd : Z) (o' : os_state) :
  forkpty_contract P ->
  forkpty P (default_termios (termios_h P)) (os s) = (pid, fd, o') ->
  pid > 0 ->
  NewIntArray_gives P = false ->
  let r := run (createSubprocess P cmd env wd) s in
  r.1 = Returned None /\
  exists (n : nat) (child : positive),
    fd = Z.of_nat n /\ pid = Z.pos child /\
    (child ∈ children (os r.2)) /\ (child ∉ children (os s)) /\
    (n ∈ open_fds (os r.2)) /\ (n ∉ open_fds (os s)).
Proof.
  intros Hcontract Hfork Hpos Hoom r. subst r. unfold run.
  rewrite (createSubprocess_branches P cmd env wd s pid fd o' Hfork).
  destruct (proj2 (Hcontract _ _ _ _ _ Hfork) Hpos)
    as (n & child & Hfd & Hpid & Hn & Hchild & Hfds & Hkids).
  assert (Hlt : (pid <? 0) = false) by (apply Z.ltb_ge; lia).
  assert (Hne : (pid =? 0) = false) by (apply Z.eqb_neq; lia).
  rewrite Hlt, Hne. unfold parent, NewIntArray, bind, emit, ret. rewrite Hoom. simpl.
  split; [reflexivity |]. exists n, child. rewrite Hfds, Hkids.
  repeat split; try assumption.
  - apply elem_of_union. left. apply elem_of_singleton. reflexivity.
  - apply elem_of_union. left. apply elem_of_singleton. reflexivity.
Qed.

Lemma null_result_with_live_child_witness :
  let P := android {| openpty_works := true; fork_gives := InParent |} (fun _ => true) false in
  let r := run (createSubprocess P ["/bin/echo"; "hello"]%string [] "/"%string) app_process in
  forkpty_contract P /\
  forkpty P (default_termios (termios_h P)) (os app_process)
    = (1, 3, {| open_fds := ({[4%nat]} ∪ ({[3%nat]} ∪ {[0%nat; 1%nat; 2%nat]})) ∖ {[4%nat]};
                children := {[1%positive]} ∪ ∅ |}) /\
  1 > 0 /\
  NewIntArray_gives P = false /\
  r.1 = Returned None /\
  exists (n : nat) (child : positive),
    3 = Z.of_nat n /\ 1 = Z.pos child /\
    (child ∈ children (os r.2)) /\ (child ∉ children (os app_process)) /\
    (n ∈ open_fds (os r.2)) /\ (n ∉ open_fds (os app_process)).
Proof.
  intros P r.
  assert (Hfork : forkpty P (default_termios (termios_h P)) (os app_process)
    = (1, 3, {| open_fds := ({[4%nat]} ∪ ({[3%nat]} ∪ {[0%nat; 1%nat; 2%nat]})) ∖ {[4%nat]};
                children := {[1%positive]} ∪ ∅ |})) by reflexivity.
  split; [apply android_contract |]. split; [exact Hfork |].
  split; [lia |]. split; [reflexivity |].
  exact (null_result_with_live_child P ["/bin/echo"; "hello"]%string [] "/"%string
           app_process _ _ _ (android_contract _ _ _) Hfork ltac:(lia) eq_refl).
Defined.

(** ** Claims about the child branch *)

Lemma exec_not_marshal t f av ev :
  forallb marshal_op t = true -> OpExecvpe f av ev ∉ t.
Proof.
  intros Hall Hin. rewrite forallb_forall in Hall.
  apply list_elem_of_In in Hin. apply Hall in Hin. discriminate.
Qed.

(** The runs of the child branch: the working directory is refused
    and the child exits at once; or the marshalling runs into
    undefined behaviour; or [execvpe] is the last call; or [execvpe]
    fails and the child logs and exits. *)
Lemma child_cases (P : platform) cmd env wd s :
  let r := child P cmd env wd s in
  (chdir_returns P wd s <> 0 /\ r.1 = Halt (ProcessExited 1) /\
   trace r.2 = trace s ++ [OpGetStringUTFChars; OpChdir; OpLog "chdir to %s failed"; OpExit 1]) \/
  (chdir_returns P wd s = 0 /\ exists t, forallb marshal_op t = true /\
     ((r.1 = Halt Undefined /\
       trace r.2 = trace s ++ [OpGetStringUTFChars; OpChdir; OpReleaseStringUTFChars] ++ t) \/
      (exists f av ev, execvpe P f av ev = true /\ r.1 = Halt (ImageReplaced f av ev) /\
         trace r.2 = trace s ++ [OpGetStringUTFChars; OpChdir; OpReleaseStringUTFChars] ++ t
                       ++ [OpExecvpe f av ev]) \/
      (exists f av ev, execvpe P f av ev = false /\ r.1 = Halt (ProcessExited 1) /\
         trace r.2 = trace s ++ [OpGetStringUTFChars; OpChdir; OpReleaseStringUTFChars] ++ t
                       ++ [OpExecvpe f av ev; OpLog "execvpe failed"; OpExit 1]))).
Proof.
  intros r. subst r. unfold child, bind.
  destruct (child_chdir_shape P wd s) as [_ Hshape].
  destruct (chdir_returns P wd s =? 0) eqn:Hgo.
  - apply Z.eqb_eq in Hgo. right. split; [exact Hgo |].
    destruct Hshape as [Hval Htrace].
    destruct (child_chdir P wd s) as [[[] | o] s1]; simpl in Hval, Htrace; [| discriminate].
    destruct (child_exec_ends_in_exec P cmd env s1) as (t & Hops & _ & Hcases).
    exists t. split; [exact Hops |]. rewrite Htrace in Hcases.
    destruct Hcases as [[Ht Hr] | [(f & av & ev & Ht & He & Hr) | (f & av & ev & Ht & He & Hr)]].
    + left. rewrite Ht, <- app_assoc. auto.
    + right; left. exists f, av, ev. rewrite Ht, <- app_assoc. auto.
    + right; right. exists f, av, ev. rewrite Ht, <- app_assoc. auto.
  - apply Z.eqb_neq in Hgo. left. split; [exact Hgo |].
    destruct Hshape as [Hhalt Htrace].
    destruct (child_chdir P wd s) as [[[] | o] s1]; simpl in Hhalt, Htrace; [discriminate |].
    injection Hhalt as ->. simpl. auto.
Qed.

(** Whatever the input, the first two calls of the child are
    [GetStringUTFChars] and [chdir]. *)
Lemma child_first_calls (P : platform) cmd env wd s :
  exists rest,
    trace (child P cmd env wd s).2 = trace s ++ OpGetStringUTFChars :: OpChdir :: rest /\
    async_signal_safe OpGetStringUTFChars = false.
Proof.
  destruct (child_cases P cmd env wd s) as
    [(_ & _ & Ht) | (_ & t & _ & [[_ Ht] | [(f & av & ev & _ & _ & Ht) | (f & av & ev & _ & _ & Ht)]])];
    rewrite Ht; eexists; (split; [reflexivity | reflexivity]).
Qed.

(** C4.  In the child (where [forkpty] returned 0):
    - if [chdir] fails, the child logs and exits with status 1, and
      the only calls it has made are the fetch of the path and the
      [chdir] itself: no marshalling, no [execvpe];
    - if [execvpe] is called and does not start the program, the
      child exits with status 1;
    - if [execvpe] starts the program, it is the last call the child
      makes, and the outcome is the replaced image;
    - every exit status the child gives is non-zero, and the child
      never returns to Java;
    - with all memory granted and the directory accepted, [execvpe]
      is indeed called, on the command and environment strings. *)
Theorem child_exits_nonzero_or_execs
  (P : platform) (cmd env : list string) (wd : string) (s : state)
  (fd : Z) (o' : os_state) :
  forkpty P (default_termios (termios_h P)) (os s) = (0, fd, o') ->
  let r := run (createSubprocess P cmd env wd) s in
  exists t,
    trace r.2 = trace s ++ OpForkpty (default_termios (termios_h P)) :: t /\
    (chdir_returns P wd s <> 0 ->
       r.1 = ProcessExited 1 /\
       t = [OpGetStringUTFChars; OpChdir; OpLog "chdir to %s failed"; OpExit 1]) /\
    (forall f av ev, OpExecvpe f av ev ∈ t -> execvpe P f av ev = false ->
       r.1 = ProcessExited 1) /\
    (forall f av ev, OpExecvpe f av ev ∈ t -> execvpe P f av ev = true ->
       r.1 = ImageReplaced f av ev /\ last t = Some (OpExecvpe f av ev)) /\
    (forall code, r.1 = ProcessExited code -> code <> 0) /\
    (forall result, r.1 <> Returned result) /\
    ((forall k, heap_gives P k = true) -> heap_wf s -> chdir_returns P wd s = 0 ->
       OpExecvpe (c_str <$> head cmd) (map c_str cmd) (map c_str env) ∈ t).
Proof.
  intros Hfork r. subst r. unfold run.
  rewrite (createSubprocess_branches P cmd env wd s 0 fd o' Hfork). simpl.
  set (s1 := record_op (OpForkpty (default_termios (termios_h P))) (set_os o' s)).
  assert (Hsame : chdir_returns P wd s1 = chdir_returns P wd s) by reflexivity.
  assert (Htr1 : forall l, trace s1 ++ l
                  = trace s ++ OpForkpty (default_termios (termios_h P)) :: l)
    by (intros l; simpl; rewrite <- app_assoc; reflexivity).
  assert (Hattempt : (forall k, heap_gives P k = true) -> heap_wf s ->
            chdir_returns P wd s = 0 ->
            forall l, trace (child P cmd env wd s1).2 = trace s1 ++ l ->
            OpExecvpe (c_str <$> head cmd) (map c_str cmd) (map c_str env) ∈ l).
  { intros Hall Hwf Hgo l Hl.
    assert (Hwf1 : heap_wf s1) by exact Hwf.
    assert (Hdir : chdir P (c_str wd) = 0)
      by (unfold chdir_returns in Hgo; rewrite Hall in Hgo; exact Hgo).
    destruct (child_chdir_ok P Hall wd s1 Hwf1 Hdir) as (s3 & Hc & Hwf3 & _ & Ht3).
    destruct (child_exec_ok P Hall cmd env s3 Hwf3) as (s4 & t4 & _ & _ & Hend).
    unfold child in Hl. rewrite (bind_val _ _ s1 _ _ Hc) in Hl.
    destruct (execvpe P (c_str <$> head cmd) (map c_str cmd) (map c_str env));
      destruct Hend as [Hend Ht4]; rewrite Hend in Hl; simpl in Hl;
      rewrite Ht4, Ht3, <- app_assoc in Hl; apply app_inv_head in Hl; subst l;
      do 3 apply list_elem_of_further; apply elem_of_app; right;
      apply list_elem_of_here. }
  destruct (child_cases P cmd env wd s1) as
    [(Hgo & Hr & Ht) | (Hgo & t1 & Hops & Hcases)]; rewrite Hsame in Hgo.
  - (* chdir refused *)
    destruct (child P cmd env wd s1) as [[res | o] s2]; simpl in Hr, Ht; [discriminate |].
    injection Hr as ->. simpl. rewrite Ht, Htr1. eexists. split; [reflexivity |].
    assert (Hnone : forall g aw ew,
              OpExecvpe g aw ew
                ∉ [OpGetStringUTFChars; OpChdir; OpLog "chdir to %s failed"; OpExit 1]).
    { intros g aw ew Hin.
      repeat (apply elem_of_cons in Hin as [Hin | Hin]; [discriminate |]).
      apply elem_of_nil in Hin. contradiction. }
    split; [intros _; split; reflexivity |].
    split; [intros g aw ew Hin; exfalso; exact (Hnone _ _ _ Hin) |].
    split; [intros g aw ew Hin; exfalso; exact (Hnone _ _ _ Hin) |].
    split; [intros code Hc; injection Hc as <-; lia |].
    split; [discriminate |].
    intros _ _ H0. contradiction.
  - (* chdir accepted *)
    assert (Hmine : forall f av ev g aw ew l,
              OpExecvpe f av ev
                ∈ [OpGetStringUTFChars; OpChdir; OpReleaseStringUTFChars] ++ t1
                    ++ OpExecvpe g aw ew :: l ->
              OpExecvpe f av ev ∉ l ->
              OpExecvpe f av ev = OpExecvpe g aw ew).
    { intros f av ev g aw ew l Hin Hl.
      repeat (apply elem_of_cons in Hin as [Hin | Hin]; [discriminate |]).
      apply elem_of_app in Hin as [Hin | Hin];
        [exfalso; exact (exec_not_marshal _ _ _ _ Hops Hin) |].
      apply elem_of_cons in Hin as [Hin | Hin]; [exact Hin | contradiction]. }
    destruct Hcases as [[Hr Ht] | [(f & av & ev & He & Hr & Ht) | (f & av & ev & He & Hr & Ht)]];
      destruct (child P cmd env wd s1) as [[res | o] s2] eqn:Hrun;
      simpl in Hr, Ht; try discriminate; injection Hr as ->; simpl;
      pose proof (fun Ha Hw Hg => Hattempt Ha Hw Hg _ Ht) as Hcalled;
      rewrite Ht, Htr1; (eexists; split; [reflexivity |]).
    + (* undefined behaviour during the marshalling *)
      assert (Hnone : forall g aw ew,
                OpExecvpe g aw ew
                  ∉ [OpGetStringUTFChars; OpChdir; OpReleaseStringUTFChars] ++ t1).
      { intros g aw ew Hin.
        repeat (apply elem_of_cons in Hin as [Hin | Hin]; [discriminate |]).
        exact (exec_not_marshal _ _ _ _ Hops Hin). }
      split; [intros Hne; contradiction |].
      split; [intros g aw ew Hin; exfalso; exact (Hnone _ _ _ Hin) |].
      split; [intros g aw ew Hin; exfalso; exact (Hnone _ _ _ Hin) |].
      split; [discriminate |]. split; [discriminate |].
      intros Ha Hw _. exact (Hcalled Ha Hw Hgo).
    + (* the program started *)
      split; [intros Hne; contradiction |].
      split; [| split; [| split; [discriminate | split; [discriminate |]]]].
      * intros g aw ew Hin Hg.
        assert (Heq : OpExecvpe g aw ew = OpExecvpe f av ev)
          by (apply (Hmine _ _ _ _ _ _ [] Hin); apply not_elem_of_nil).
        injection Heq as -> -> ->. congruence.
      * intros g aw ew Hin Hg.
        assert (Heq : OpExecvpe g aw ew = OpExecvpe f av ev)
          by (apply (Hmine _ _ _ _ _ _ [] Hin); apply not_elem_of_nil).
        injection Heq as -> -> ->. split; [reflexivity |].
        exact (last_snoc _ (OpGetStringUTFChars :: OpChdir :: OpReleaseStringUTFChars :: t1)).
      * intros Ha Hw _. exact (Hcalled Ha Hw Hgo).
    + (* the program did not start *)
      assert (Hlater : forall g aw ew,
                OpExecvpe g aw ew ∉ [OpLog "execvpe failed"; OpExit 1]).
      { intros g aw ew Hin.
        repeat (apply elem_of_cons in Hin as [Hin | Hin]; [discriminate |]).
        apply elem_of_nil in Hin. contradiction. }
      split; [intros Hne; contradiction |].
      split; [| split; [| split; [| split; [discriminate |]]]].
      * intros g aw ew Hin Hg. reflexivity.
      * intros g aw ew Hin Hg.
        assert (Heq : OpExecvpe g aw ew = OpExecvpe f av ev)
          by (apply (Hmine _ _ _ _ _ _ _ Hin); apply Hlater).
        injection Heq as -> -> ->. congruence.
      * intros code Hc. injection Hc as <-. lia.
      * intros Ha Hw _. exact (Hcalled Ha Hw Hgo).
Qed.

Lemma child_exits_nonzero_or_execs_witness :
  let P := android {| openpty_works := true; fork_gives := InChild |} (fun _ => true) true in
  let r := run (createSubprocess P ["/bin/echo"; "hello"]%string [] "/"%string) app_process in
  forkpty P (default_termios (termios_h P)) (os app_process)
    = (0, -1, (forkpty P (default_termios (termios_h P)) (os app_process)).2) /\
  r.1 = ImageReplaced (Some "/bin/echo"%string) ["/bin/echo"; "hello"]%string [].
Proof.
  intros P r.
  assert (Hfork : forkpty P (default_termios (termios_h P)) (os app_process)
    = (0, -1, (forkpty P (default_termios (termios_h P)) (os app_process)).2))
    by reflexivity.
  split; [exact Hfork |].
  destruct (child_exits_nonzero_or_execs P ["/bin/echo"; "hello"]%string [] "/"%string
              app_process _ _ Hfork) as (t & _ & _ & _ & Hstarted & _ & _ & Hcalled).
  apply (Hstarted _ _ _ (Hcalled (fun _ => eq_refl) (heap_wf_fresh _) eq_refl)).
  reflexivity.
Defined.

(** ** Claims about marshalling *)

Lemma lookup_map {A B} (f : A -> B) (l : list A) (i : nat) :
  map f l !! i = f <$> (l !! i).
Proof.
  revert i. induction l as [| x l IH]; intros [| i]; simpl; auto.
Qed.

(** C3.  With all memory granted, marshalling an array of N strings
    gives a vector of exactly N+1 cells whose last cell is the null
    pointer.  For every [i < N], cell [i] points to a block that holds
    the [i]-th string as C reads it (the string itself when it has no
    NUL byte), that did not exist before the call, that is not the
    vector, and that no other cell points to.  Apart from the vector
    and these blocks the heap is as it was before the call: in
    particular every buffer [GetStringUTFChars] handed out has been
    released, so no copy shares memory with the characters it was
    taken from. *)
Theorem marshal_gives_null_terminated_copies
  (P : platform) (arr : list string) (s : state) :
  (forall k, heap_gives P k = true) ->
  heap_wf s ->
  exists v cells s',
    marshal P arr s = (Val (Ptr v), s') /\
    heap s' !! v = Some (Vector cells) /\
    length cells = S (length arr) /\
    cells !! length arr = Some (Stored NULL) /\
    (forall i j, arr !! i = Some j ->
       exists a,
         cells !! i = Some (Stored (Ptr a)) /\
         heap s' !! a = Some (Chars (c_str j)) /\
         (has_nul j = false -> heap s' !! a = Some (Chars j)) /\
         heap s !! a = None /\ a <> v /\
         (forall i', i' <> i -> cells !! i' <> Some (Stored (Ptr a)))) /\
    (forall x, x <> v -> Stored (Ptr x) ∉ cells -> heap s' !! x = heap s !! x).
Proof.
  intros Hall Hwf.
  destruct (marshal_ok P Hall arr s Hwf) as
    (v & addrs & s' & Hrun & Hv & Hlen & Hcopies & Hnd & Hnew & Hframe & _ & _ & _).
  set (f := fun a => Stored (Ptr a)) in *.
  assert (Hflen : length (map f addrs) = length arr) by (rewrite length_map; exact Hlen).
  exists v, (map f addrs ++ [Stored NULL]), s'.
  split; [exact Hrun |]. split; [exact Hv |].
  split; [rewrite length_app, Hflen; simpl; lia |].
  split; [rewrite lookup_app_r, Hflen, Nat.sub_diag by lia; reflexivity |].
  apply NoDup_cons in Hnd as [Hv_notin Hnd].
  split.
  - intros i j Hj.
    assert (Hi : (i < length addrs)%nat) by (rewrite Hlen; eapply lookup_lt_Some; eauto).
    destruct (lookup_lt_is_Some_2 addrs i Hi) as [a Ha].
    destruct (Hcopies i a Ha) as (j' & Hj' & Hblock).
    assert (j' = j) by congruence. subst j'.
    exists a. split; [| split; [| split; [| split; [| split]]]].
    + rewrite lookup_app_l by (rewrite length_map; exact Hi).
      rewrite lookup_map, Ha. reflexivity.
    + exact Hblock.
    + intros Hnul. rewrite (c_str_no_nul j Hnul) in Hblock. exact Hblock.
    + apply Hnew. apply elem_of_cons. right. apply list_elem_of_lookup. eauto.
    + intros ->. apply Hv_notin. apply list_elem_of_lookup. eauto.
    + intros i' Hne Hi'.
      destruct (decide (i' < length addrs)%nat) as [Hlt | Hge].
      * rewrite lookup_app_l in Hi' by (rewrite length_map; exact Hlt).
        rewrite lookup_map in Hi'.
        destruct (addrs !! i') as [a' |] eqn:Ha'; [| discriminate].
        injection Hi' as ->.
        apply Hne. exact (NoDup_lookup addrs i' i a Hnd Ha' Ha).
      * rewrite lookup_app_r in Hi' by (rewrite length_map; lia).
        destruct (i' - length (map f addrs))%nat as [| k]; simpl in Hi'; discriminate.
  - intros x Hxv Hx. apply Hframe. apply not_elem_of_cons. split; [exact Hxv |].
    intros Hin. apply Hx. apply elem_of_app. left.
    apply list_elem_of_In. change (Stored (Ptr x)) with (f x).
    apply in_map, list_elem_of_In. exact Hin.
Qed.

Lemma marshal_gives_null_terminated_copies_witness :
  let P := android {| openpty_works := true; fork_gives := InChild |} (fun _ => true) true in
  (forall k, heap_gives P k = true) /\
  heap_wf app_process /\
  exists v cells s',
    marshal P ["TERM=xterm"; "HOME=/"]%string app_process = (Val (Ptr v), s') /\
    heap s' !! v = Some (Vector cells) /\
    length cells = 3%nat /\
    cells !! 2%nat = Some (Stored NULL) /\
    (exists a, cells !! 0%nat = Some (Stored (Ptr a)) /\
               heap s' !! a = Some (Chars "TERM=xterm")) /\
    (exists a, cells !! 1%nat = Some (Stored (Ptr a)) /\
               heap s' !! a = Some (Chars "HOME=/")).
Proof.
  intros P. split; [intros k; reflexivity |]. split; [apply heap_wf_fresh |].
  destruct (marshal_gives_null_terminated_copies P ["TERM=xterm"; "HOME=/"]%string
              app_process (fun _ => eq_refl) (heap_wf_fresh _))
    as (v & cells & s' & Hrun & Hv & Hlen & Hlast & Hcopies & _).
  exists v, cells, s'. repeat split; try assumption.
  - destruct (Hcopies 0%nat _ eq_refl) as (a & Hcell & _ & Hblock & _).
    exists a. split; [exact Hcell | exact (Hblock eq_refl)].
  - destruct (Hcopies 1%nat _ eq_refl) as (a & Hcell & _ & Hblock & _).
    exists a. split; [exact Hcell | exact (Hblock eq_refl)].
Defined.

(** C6.  A failed allocation while marshalling is not looked at.
    When the [strdup] of the first of two environment strings fails
    (the fourth request of the run), the null pointer is stored in the
    vector: the program is started with an empty environment, no
    failure is reported, and the copy of the second string stays
    allocated.  When the [malloc] of the vector fails (the second
    request), the first store goes through the null pointer. *)
Theorem failed_allocation_goes_unnoticed :
  let child_side := {| openpty_works := true; fork_gives := InChild |} in
  let run_with gives :=
    run (createSubprocess (android child_side gives true)
           ["/bin/echo"]%string ["A=1"; "B=2"]%string "/"%string) app_process in
  let r := run_with (fun k => negb (k =? 3)%nat) in
  r.1 = ImageReplaced (Some "/bin/echo"%string) ["/bin/echo"%string] [] /\
  heap r.2 !! 2%positive = Some (Vector [Stored NULL; Stored (Ptr 5); Stored NULL]) /\
  heap r.2 !! 5%positive = Some (Chars "B=2") /\
  (run_with (fun k => negb (k =? 1)%nat)).1 = Undefined.
Proof.
  vm_compute. repeat split.
Qed.

(** C9.  The calls of the child between [forkpty] and [execvpe], for
    a command of two strings and an environment of one, with those
    outside the async-signal-safe set picked out: the JNI accessors,
    [malloc] and [strdup] are all there.  With a working directory
    that does not exist the child calls the logger and [exit]. *)
Theorem child_calls_outside_async_signal_safe_set :
  let child_side := {| openpty_works := true; fork_gives := InChild |} in
  let P := android child_side (fun _ => true) true in
  let unsafe t := filter (fun e => negb (async_signal_safe e)) (tail t) in
  let r := run (createSubprocess P ["/bin/echo"; "hello"]%string
                  ["TERM=xterm"]%string "/"%string) app_process in
  let r' := run (createSubprocess P ["/bin/echo"; "hello"]%string
                   ["TERM=xterm"]%string "/nonexistent"%string) app_process in
  r.1 = ImageReplaced (Some "/bin/echo"%string) ["/bin/echo"; "hello"]%string
          ["TERM=xterm"%string] /\
  unsafe (trace r.2)
  = [OpGetStringUTFChars; OpReleaseStringUTFChars;
     OpGetArrayLength; OpMalloc;
     OpGetObjectArrayElement; OpGetStringUTFChars; OpStrdup; OpReleaseStringUTFChars;
     OpGetArrayLength; OpMalloc;
     OpGetObjectArrayElement; OpGetStringUTFChars; OpStrdup; OpReleaseStringUTFChars;
     OpGetObjectArrayElement; OpGetStringUTFChars; OpStrdup; OpReleaseStringUTFChars] /\
  r'.1 = ProcessExited 1 /\
  unsafe (trace r'.2)
  = [OpGetStringUTFChars; OpLog "chdir to %s failed"; OpExit 1].
Proof.
  vm_compute. repeat split.
Qed.

(** ** Claims about the result *)

(** What [createSubprocess] returns in the process that called it:
    NULL when [forkpty] failed, with the kernel state as before; the
    pair of a positive process identifier and a descriptor number
    when the result array could be allocated; NULL again when it
    could not, with the kernel state [forkpty] left. *)
Lemma spawn_result_cases
  (P : platform) (cmd env : list string) (wd : string) (s : state)
  (pid fd : Z) (o' : os_state) :
  forkpty_contract P ->
  forkpty P (default_termios (termios_h P)) (os s) = (pid, fd, o') ->
  pid <> 0 ->
  let r := run (createSubprocess P cmd env wd) s in
  (pid < 0 /\ r.1 = Returned None /\ os r.2 = os s) \/
  (pid > 0 /\ NewIntArray_gives P = true /\
   r.1 = Returned (Some (pid, fd)) /\ 0 <= fd /\ os r.2 = o') \/
  (pid > 0 /\ NewIntArray_gives P = false /\
   r.1 = Returned None /\ os r.2 = o' /\ o' <> os s).
Proof.
  intros Hcontract Hfork Hne r. subst r. unfold run.
  rewrite (createSubprocess_branches P cmd env wd s pid fd o' Hfork).
  destruct (Hcontract _ _ _ _ _ Hfork) as [Hfail Hok].
  destruct (Z.ltb_spec pid 0) as [Hneg | Hpos].
  - left. rewrite (Hfail Hneg). simpl. auto.
  - right. assert (Hgt : pid > 0) by lia.
    destruct (Hok Hgt) as (n & child & -> & Hpid & Hn & Hchild & Hfds & Hkids).
    assert (Hz : (pid =? 0) = false) by (apply Z.eqb_neq; exact Hne).
    rewrite Hz. unfold parent, NewIntArray, SetIntArrayRegion, bind, emit, ret.
    destruct (NewIntArray_gives P); simpl.
    + left. repeat split; auto. lia.
    + right. repeat split; auto.
      intros ->. apply Hn. rewrite Hfds. apply elem_of_union. left.
      apply elem_of_singleton. reflexivity.
Qed.

(** C1.  [forkpty] succeeds in the parent, with child 1 and master
    descriptor 3, and the Java heap has no room for the result array:
    [createSubprocess] returns NULL, and the process that had
    descriptors 0, 1, 2 and no children now has descriptor 3 open and
    child 1. *)
Theorem null_result_leaves_child_and_descriptor :
  let parent_side := {| openpty_works := true; fork_gives := InParent |} in
  let P := android parent_side (fun _ => true) false in
  let r := run (createSubprocess P ["/bin/sh"]%string ["TERM=xterm"]%string "/"%string)
             app_process in
  forkpty P (default_termios (termios_h P)) (os app_process)
    = (1, 3, {| open_fds := {[0%nat; 1%nat; 2%nat; 3%nat]}; children := {[1%positive]} |}) /\
  open_fds (os app_process) = {[0%nat; 1%nat; 2%nat]} /\
  children (os app_process) = ∅ /\
  r.1 = Returned None /\
  open_fds (os r.2) = {[0%nat; 1%nat; 2%nat; 3%nat]} /\
  children (os r.2) = {[1%positive]}.
Proof.
  vm_compute. repeat split.
Qed.

(** * Further properties of the code *)

(** ** Marshalling when memory may be refused *)

Section MarshalAny.
Variable P : platform.

(** One turn of the loop, whatever the allocator answers: the turn
    ends in undefined behaviour (the characters could not be fetched
    and [strdup] is handed a null pointer), or it stores in cell [i]
    either a pointer to a new copy of the string or, when [strdup]
    failed, the null pointer. *)
Lemma marshal_entry_any arr v i j cells s :
  heap_wf s -> arr !! i = Some j ->
  heap s !! v = Some (Vector cells) -> (i < length cells)%nat ->
  match marshal_entry P arr (Ptr v) i s with
  | (Halt o, _) => o = Undefined
  | (Val _, s') =>
      heap_wf s' /\
      (forall y blk, y <> v -> heap s !! y = Some blk -> heap s' !! y = Some blk) /\
      exists x, heap s' !! v = Some (Vector (<[i := Stored x]> cells)) /\
        match x with
        | NULL => True
        | Ptr a => a <> v /\ heap s' !! a = Some (Chars (c_str j))
        end
  end.
Proof.
  intros Hwf Harr Hv Hi.
  assert (Hvb : (v < brk s)%positive) by (apply Hwf; rewrite Hv; eauto).
  assert (Hold : forall y blk, heap s !! y = Some blk -> (y < brk s)%positive)
    by (intros y blk Hy; apply Hwf; rewrite Hy; eauto).
  unfold marshal_entry, GetObjectArrayElement, GetStringUTFChars, strdup,
    ReleaseStringUTFChars, bind, emit, allocate, load_chars, store, release, ret.
  rewrite Harr. simpl.
  destruct (heap_gives P (asked s)); simpl; [| reflexivity].
  rewrite lookup_insert_eq. apply Nat.ltb_lt in Hi. simpl.
  destruct (heap_gives P (S (asked s))); simpl.
  - rewrite lookup_insert_ne by lia. rewrite lookup_insert_ne by lia.
    rewrite Hv, Hi. simpl. split; [| split].
    + intros y [blk Hy]. simpl in *.
      destruct (decide (y = brk s)) as [-> | Hyb]; [lia |].
      rewrite lookup_delete_ne in Hy by congruence.
      destruct (decide (y = v)) as [-> | Hyv]; [lia |].
      rewrite lookup_insert_ne in Hy by congruence.
      destruct (decide (y = Pos.succ (brk s))) as [-> | Hya]; [lia |].
      rewrite !lookup_insert_ne in Hy by congruence.
      specialize (Hold y blk Hy). lia.
    + intros y blk Hyv Hy. specialize (Hold y blk Hy).
      rewrite lookup_delete_ne by lia.
      rewrite !lookup_insert_ne by (congruence || lia). exact Hy.
    + exists (Ptr (Pos.succ (brk s))). split.
      * rewrite lookup_delete_ne by lia. apply lookup_insert_eq.
      * split; [lia |]. rewrite lookup_delete_ne by lia.
        rewrite lookup_insert_ne by lia. apply lookup_insert_eq.
  - rewrite lookup_insert_ne by lia.
    rewrite Hv, Hi. simpl. split; [| split].
    + intros y [blk Hy]. simpl in *.
      destruct (decide (y = brk s)) as [-> | Hyb]; [lia |].
      rewrite lookup_delete_ne in Hy by congruence.
      destruct (decide (y = v)) as [-> | Hyv]; [lia |].
      rewrite !lookup_insert_ne in Hy by congruence.
      specialize (Hold y blk Hy). lia.
    + intros y blk Hyv Hy. specialize (Hold y blk Hy).
      rewrite lookup_delete_ne by lia.
      rewrite !lookup_insert_ne by (congruence || lia). exact Hy.
    + exists NULL. split; [| exact I].
      rewrite lookup_delete_ne by lia. apply lookup_insert_eq.
Qed.

Lemma marshal_loop_any arr v : forall n i s cells,
  heap_wf s -> heap s !! v = Some (Vector cells) ->
  (i + n < length cells)%nat -> (i + n)%nat = length arr ->
  match for_loop i n (marshal_entry P arr (Ptr v)) s with
  | (Halt o, _) => o = Undefined
  | (Val _, s') =>
      heap_wf s' /\
      (forall y blk, y <> v -> heap s !! y = Some blk -> heap s' !! y = Some blk) /\
      exists cells', heap s' !! v = Some (Vector cells') /\
        length cells' = length cells /\
        (forall k, (k < i \/ i + n <= k)%nat -> cells' !! k = cells !! k) /\
        (forall k, (i <= k < i + n)%nat ->
           exists x, cells' !! k = Some (Stored x) /\
             match x with
             | NULL => True
             | Ptr a => a <> v /\
                 exists j, arr !! k = Some j /\ heap s' !! a = Some (Chars (c_str j))
             end)
  end.
Proof.
  induction n as [| n IH]; intros i s cells Hwf Hv Hlen Hsum.
  - simpl. split; [exact Hwf |]. split; [auto |].
    exists cells. repeat split; auto. intros k Hk. lia.
  - assert (Hj : is_Some (arr !! i)) by (apply lookup_lt_is_Some; lia).
    destruct Hj as [j Hj].
    assert (Hi : (i < length cells)%nat) by lia.
    pose proof (marshal_entry_any arr v i j cells s Hwf Hj Hv Hi) as Hentry.
    simpl. unfold bind.
    destruct (marshal_entry P arr (Ptr v) i s) as [[[] | o] s1]; [| exact Hentry].
    destruct Hentry as (Hwf1 & Hkeep1 & x & Hv1 & Hx).
    specialize (IH (S i) s1 (<[i := Stored x]> cells) Hwf1 Hv1).
    rewrite length_insert in IH.
    specialize (IH ltac:(lia) ltac:(lia)).
    destruct (for_loop (S i) n (marshal_entry P arr (Ptr v)) s1) as [[[] | o] s2];
      [| exact IH].
    destruct IH as (Hwf2 & Hkeep2 & cells' & Hv2 & Hlen2 & Hsame & Hnew).
    split; [exact Hwf2 |]. split; [intros y blk Hy Hb; eauto |].
    exists cells'. split; [exact Hv2 |]. split; [exact Hlen2 |]. split.
    + intros k Hk. rewrite Hsame by lia. apply list_lookup_insert_ne. lia.
    + intros k Hk. destruct (decide (k = i)) as [-> | Hne].
      * exists x. rewrite Hsame by lia.
        split; [apply list_lookup_insert_eq; exact Hi |].
        destruct x as [| a]; [exact I |]. destruct Hx as [Hav Ha].
        split; [exact Hav |]. exists j. split; [exact Hj |]. exact (Hkeep2 a _ Hav Ha).
      * apply Hnew. lia.
Qed.

(** When the vector itself is refused, the stores go through the null
    pointer: the marshalling of any array, the empty one included,
    ends in undefined behaviour. *)
Lemma marshal_refused arr s :
  heap_gives P (asked s) = false -> (marshal P arr s).1 = Halt Undefined.
Proof.
  intros Hno. unfold marshal, GetArrayLength, malloc, bind, emit, allocate, ret.
  simpl. rewrite Hno. simpl.
  destruct arr as [| j arr]; simpl; [reflexivity |].
  unfold bind, marshal_entry, GetObjectArrayElement, GetStringUTFChars, strdup,
    bind, emit, allocate, load_chars, store, ret. simpl.
  destruct (heap_gives P (S (asked s))); simpl; [| reflexivity].
  rewrite lookup_insert_eq. simpl.
  destruct (heap_gives P (S (S (asked s)))); reflexivity.
Qed.

(** The marshalling of an array, whatever the allocator answers: it
    ends in undefined behaviour, or it yields a vector of one cell
    more than the array has elements, every cell assigned, the last
    one null, each other one null or pointing to a copy of its string;
    the blocks that were there before are untouched. *)
Lemma marshal_any arr s :
  heap_wf s ->
  match marshal P arr s with
  | (Halt o, _) => o = Undefined
  | (Val q, s') =>
      heap_wf s' /\
      (forall y blk, heap s !! y = Some blk -> heap s' !! y = Some blk) /\
      exists v cells, q = Ptr v /\ heap s !! v = None /\
        heap s' !! v = Some (Vector cells) /\
        length cells = S (length arr) /\
        cells !! length arr = Some (Stored NULL) /\
        (forall k, (k < length arr)%nat ->
           exists x, cells !! k = Some (Stored x) /\
             match x with
             | NULL => True
             | Ptr a => exists j, arr !! k = Some j /\ heap s' !! a = Some (Chars (c_str j))
             end)
  end.
Proof.
  intros Hwf.
  destruct (heap_gives P (asked s)) eqn:Hgive.
  - assert (Hfresh : heap s !! brk s = None).
    { destruct (heap s !! brk s) eqn:E; [| reflexivity].
      assert (brk s < brk s)%positive by (apply Hwf; rewrite E; eauto). lia. }
    unfold marshal.
    rewrite (bind_val _ _ s (length arr) (record_op OpGetArrayLength s)) by reflexivity.
    set (s0 := record_op OpGetArrayLength s).
    set (v := brk s) in *.
    set (s1 := {| os := os s0;
                  heap := <[v := Vector (repeat Uninit (length arr + 1))]> (heap s0);
                  brk := Pos.succ v; asked := S (asked s0);
                  trace := trace s0 ++ [OpMalloc] |}).
    assert (Hmalloc : malloc P (length arr + 1) s0 = (Val (Ptr v), s1)).
    { unfold malloc, bind, emit, allocate. simpl. rewrite Hgive. reflexivity. }
    rewrite (bind_val _ _ s0 _ _ Hmalloc).
    assert (Hwf1 : heap_wf s1).
    { intros y [blk Hy]. simpl in *. destruct (decide (y = v)) as [-> | Hyv]; [lia |].
      rewrite lookup_insert_ne in Hy by congruence.
      assert (y < brk s)%positive by (apply Hwf; rewrite Hy; eauto). subst v. lia. }
    assert (Hv1 : heap s1 !! v = Some (Vector (repeat Uninit (length arr + 1))))
      by (simpl; apply lookup_insert_eq).
    pose proof (marshal_loop_any arr v (length arr) 0 s1 _ Hwf1 Hv1) as Hloop.
    rewrite repeat_length in Hloop. specialize (Hloop ltac:(lia) ltac:(lia)).
    unfold bind at 1.
    destruct (for_loop 0 (length arr) (marshal_entry P arr (Ptr v)) s1) as [[[] | o] s2];
      [| exact Hloop].
    destruct Hloop as (Hwf2 & Hkeep & cells' & Hv2 & Hlen & _ & Hcells).
    assert (Hlast : (length arr < length cells')%nat) by lia.
    assert (Hstore : store (Ptr v) (length arr) NULL s2
              = (Val tt, set_heap (<[v := Vector (<[length arr := Stored NULL]> cells')]>
                                     (heap s2)) s2)).
    { unfold store. rewrite Hv2. apply Nat.ltb_lt in Hlast. rewrite Hlast. reflexivity. }
    rewrite (bind_val _ _ s2 _ _ Hstore). unfold ret. simpl.
    split; [| split].
    + intros y [blk Hy]. simpl in *. destruct (decide (y = v)) as [-> | Hyv].
      * apply Hwf2. rewrite Hv2. eauto.
      * rewrite lookup_insert_ne in Hy by congruence. apply Hwf2. rewrite Hy. eauto.
    + intros y blk Hy.
      assert (Hyv : y <> v) by (intros ->; congruence).
      rewrite lookup_insert_ne by congruence. apply Hkeep; [exact Hyv |].
      simpl. rewrite lookup_insert_ne by congruence. exact Hy.
    + exists v, (<[length arr := Stored NULL]> cells').
      split; [reflexivity |]. split; [exact Hfresh |].
      split; [apply lookup_insert_eq |].
      split; [rewrite length_insert; lia |].
      split; [apply list_lookup_insert_eq; exact Hlast |].
      intros k Hk. destruct (Hcells k ltac:(lia)) as (x & Hx & Hcopy).
      exists x. split; [rewrite list_lookup_insert_ne by lia; exact Hx |].
      destruct x as [| a]; [exact I |].
      destruct Hcopy as (Hav & j & Hj & Ha). exists j. split; [exact Hj |].
      rewrite lookup_insert_ne by congruence. exact Ha.
  - pose proof (marshal_refused arr s Hgive) as Hr.
    destruct (marshal P arr s) as [[q | o] s']; simpl in Hr; [discriminate |].
    injection Hr as ->. reflexivity.
Qed.

End MarshalAny.

(** ** What [execvpe] reads, when memory may be refused *)

Lemma strings_leading (h : gmap positive block) :
  forall (arr : list string) (cells : list slot),
  cells !! length arr = Some (Stored NULL) ->
  (forall k, (k < length arr)%nat ->
     exists x, cells !! k = Some (Stored x) /\
       match x with
       | NULL => True
       | Ptr a => exists j, arr !! k = Some j /\ h !! a = Some (Chars (c_str j))
       end) ->
  exists n, (n <= length arr)%nat /\
    strings_until_null h cells = Some (map c_str (take n arr)).
Proof.
  induction arr as [| j arr IH]; intros cells Hlast Hcells.
  - exists O. split; [lia |].
    destruct cells as [| c cells]; [discriminate |].
    simpl in Hlast. injection Hlast as ->. reflexivity.
  - destruct (Hcells O ltac:(simpl; lia)) as (x & Hx & Hcopy).
    destruct cells as [| c cells]; [discriminate |].
    simpl in Hx. injection Hx as ->.
    destruct x as [| a].
    + exists O. split; [lia | reflexivity].
    + destruct Hcopy as (j' & Hj' & Ha). simpl in Hj'. injection Hj' as <-.
      destruct (IH cells) as (n & Hn & Hrest).
      * exact Hlast.
      * intros k Hk. exact (Hcells (S k) ltac:(simpl; lia)).
      * exists (S n). split; [simpl; lia |].
        simpl. rewrite Ha, Hrest, c_str_idem. reflexivity.
Qed.

Lemma strings_kept (h h' : gmap positive block) :
  (forall y blk, h !! y = Some blk -> h' !! y = Some blk) ->
  forall cells l, strings_until_null h cells = Some l ->
                  strings_until_null h' cells = Some l.
Proof.
  intros Hkeep. induction cells as [| c cells IH]; intros l Hl; [discriminate |].
  destruct c as [| [| a]]; simpl in *; [discriminate | exact Hl |].
  destruct (h !! a) as [[str | ?] |] eqn:Ha; try discriminate.
  rewrite (Hkeep _ _ Ha).
  destruct (strings_until_null h cells) as [l' |]; [| discriminate].
  rewrite (IH l' eq_refl). exact Hl.
Qed.

Lemma file_is_head (h : gmap positive block) cells av :
  strings_until_null h cells = Some av ->
  exists x, cells !! O = Some (Stored x) /\
    match x with
    | NULL => Some None
    | Ptr a => match h !! a with
               | Some (Chars str) => Some (Some (c_str str))
               | _ => None
               end
    end = Some (head av).
Proof.
  intros Hav. destruct cells as [| [| [| a]] cells]; simpl in Hav; try discriminate.
  - injection Hav as <-. exists NULL. auto.
  - exists (Ptr a). split; [reflexivity |].
    destruct (h !! a) as [[str | ?] |]; try discriminate.
    destruct (strings_until_null h cells); [| discriminate].
    injection Hav as <-. reflexivity.
Qed.

Section ChildAny.
Variable P : platform.

(** The second part of the child, whatever the allocator answers: it
    never yields a value and never returns to Java; it runs into
    undefined behaviour, or exits with status 1, or starts the program
    on leading parts of the command and of the environment. *)
Lemma child_exec_any cmd env s :
  heap_wf s ->
  match child_exec P cmd env s with
  | (Val _, _) => False
  | (Halt (Returned _), _) => False
  | (Halt Undefined, _) => True
  | (Halt (ProcessExited code), _) => code = 1
  | (Halt (ImageReplaced f av ev), _) =>
      execvpe P f av ev = true /\ given_leading_parts cmd env f av ev
  end.
Proof.
  intros Hwf. unfold child_exec.
  pose proof (marshal_any P env s Hwf) as Henv. unfold bind at 1.
  destruct (marshal P env s) as [[envp | o] s1]; [| subst o; exact I].
  destruct Henv as (Hwf1 & _ & v1 & cells1 & -> & _ & Hv1 & _ & Hlast1 & Hcells1).
  pose proof (marshal_any P cmd s1 Hwf1) as Hcmd. unfold bind at 1.
  destruct (marshal P cmd s1) as [[argv | o] s2]; [| subst o; exact I].
  destruct Hcmd as (_ & Hkeep & v2 & cells2 & -> & _ & Hv2 & _ & Hlast2 & Hcells2).
  destruct (strings_leading (heap s1) env cells1 Hlast1 Hcells1) as (k2 & Hk2 & Hev).
  apply (strings_kept _ _ Hkeep) in Hev.
  destruct (strings_leading (heap s2) cmd cells2 Hlast2 Hcells2) as (k1 & Hk1 & Hav).
  destruct (file_is_head _ _ _ Hav) as (x & Hx & Hfile).
  unfold bind, load, sys_execvpe. rewrite Hv2, Hx. simpl.
  rewrite Hfile, Hv2, Hav, (Hkeep _ _ Hv1), Hev.
  destruct (execvpe P (head (map c_str (take k1 cmd))) (map c_str (take k1 cmd))
              (map c_str (take k2 env))) eqn:Hexec; simpl.
  - split; [exact Hexec |]. exists k1, k2. auto.
  - reflexivity.
Qed.

(** The first part of the child keeps the heap well formed. *)
Lemma child_chdir_wf wd s :
  heap_wf s ->
  match child_chdir P wd s with
  | (Val _, s') => heap_wf s'
  | (Halt o, _) => o = ProcessExited 1
  end.
Proof.
  intros Hwf.
  unfold child_chdir, GetStringUTFChars, sys_chdir, bind, emit, allocate.
  simpl. destruct (heap_gives P (asked s)); simpl; [| reflexivity].
  rewrite lookup_insert_eq. simpl.
  destruct (chdir P (c_str wd) =? 0); simpl; [| reflexivity].
  intros y [blk Hy]. simpl in *.
  destruct (decide (y = brk s)) as [-> | Hne]; [lia |].
  rewrite lookup_delete_ne, lookup_insert_ne in Hy by congruence.
  assert (y < brk s)%positive by (apply Hwf; rewrite Hy; eauto). lia.
Qed.

End ChildAny.

(** ** The caller's side *)

(** X1.  When [forkpty] has returned in the parent and the result
    array is allocated, the caller gets the pair [forkpty] produced,
    process identifier first and master descriptor second; when the
    function returns the descriptor is open and the child has not been
    reaped, and the only calls made were [forkpty], [NewIntArray] and
    [SetIntArrayRegion]. *)
Theorem parent_returns_live_handle
  (P : platform) (cmd env : list string) (wd : string) (s : state)
  (pid fd : Z) (o' : os_state) :
  forkpty_contract P ->
  forkpty P (default_termios (termios_h P)) (os s) = (pid, fd, o') ->
  pid > 0 ->
  NewIntArray_gives P = true ->
  let r := run (createSubprocess P cmd env wd) s in
  r.1 = Returned (Some (pid, fd)) /\
  (exists (n : nat) (child : positive),
     fd = Z.of_nat n /\ pid = Z.pos child /\
     (n ∈ open_fds (os r.2)) /\ (child ∈ children (os r.2))) /\
  trace r.2 = trace s ++ [OpForkpty (default_termios (termios_h P));
                          OpNewIntArray; OpSetIntArrayRegion].
Proof.
  intros Hcontract Hfork Hpos Hgives r. subst r. unfold run.
  rewrite (createSubprocess_branches P cmd env wd s pid fd o' Hfork).
  destruct (proj2 (Hcontract _ _ _ _ _ Hfork) Hpos)
    as (n & child & Hfd & Hpid & _ & _ & Hfds & Hkids).
  assert (Hlt : (pid <? 0) = false) by (apply Z.ltb_ge; lia).
  assert (Hne : (pid =? 0) = false) by (apply Z.eqb_neq; lia).
  rewrite Hlt, Hne.
  unfold parent, NewIntArray, SetIntArrayRegion, bind, emit, ret. rewrite Hgives. simpl.
  split; [reflexivity |]. split.
  - exists n, child. rewrite Hfds, Hkids. repeat split; try assumption.
    + apply elem_of_union. left. apply elem_of_singleton. reflexivity.
    + apply elem_of_union. left. apply elem_of_singleton. reflexivity.
  - rewrite <- !app_assoc. reflexivity.
Qed.

Lemma parent_returns_live_handle_witness :
  let P := android {| openpty_works := true; fork_gives := InParent |} (fun _ => true) true in
  let r := run (createSubprocess P ["/bin/echo"; "hello"]%string [] "/"%string) app_process in
  forkpty_contract P /\
  forkpty P (default_termios (termios_h P)) (os app_process)
    = (1, 3, {| open_fds := ({[4%nat]} ∪ ({[3%nat]} ∪ {[0%nat; 1%nat; 2%nat]})) ∖ {[4%nat]};
                children := {[1%positive]} ∪ ∅ |}) /\
  1 > 0 /\
  NewIntArray_gives P = true /\
  r.1 = Returned (Some (1, 3)).
Proof.
  intros P r.
  assert (Hfork : forkpty P (default_termios (termios_h P)) (os app_process)
    = (1, 3, {| open_fds := ({[4%nat]} ∪ ({[3%nat]} ∪ {[0%nat; 1%nat; 2%nat]})) ∖ {[4%nat]};
                children := {[1%positive]} ∪ ∅ |})) by reflexivity.
  split; [apply android_contract |]. split; [exact Hfork |].
  split; [lia |]. split; [reflexivity |].
  exact (proj1 (parent_returns_live_handle P ["/bin/echo"; "hello"]%string [] "/"%string
                  app_process _ _ _ (android_contract _ _ _) Hfork ltac:(lia) eq_refl)).
Defined.

(** X2.  In the process that called it (where [forkpty] did not
    return 0) the function never looks at its arguments: any other
    command, environment and working directory, an empty command
    included, give the same result and the same state. *)
Theorem caller_side_ignores_arguments
  (P : platform) (cmd env cmd' env' : list string) (wd wd' : string) (s : state)
  (pid fd : Z) (o' : os_state) :
  forkpty P (default_termios (termios_h P)) (os s) = (pid, fd, o') ->
  pid <> 0 ->
  run (createSubprocess P cmd env wd) s = run (createSubprocess P cmd' env' wd') s.
Proof.
  intros Hfork Hne. unfold run.
  rewrite (createSubprocess_branches P cmd env wd s pid fd o' Hfork).
  rewrite (createSubprocess_branches P cmd' env' wd' s pid fd o' Hfork).
  assert (Hz : (pid =? 0) = false) by (apply Z.eqb_neq; exact Hne).
  rewrite Hz. reflexivity.
Qed.

Lemma caller_side_ignores_arguments_witness :
  let P := android {| openpty_works := true; fork_gives := InParent |} (fun _ => true) true in
  forkpty P (default_termios (termios_h P)) (os app_process)
    = (1, 3, (forkpty P (default_termios (termios_h P)) (os app_process)).2) /\
  1 <> 0 /\
  run (createSubprocess P ["/bin/echo"; "hello"]%string ["TERM=xterm"]%string "/"%string)
      app_process
  = run (createSubprocess P [] [] "/nonexistent"%string) app_process.
Proof.
  intros P.
  assert (Hfork : forkpty P (default_termios (termios_h P)) (os app_process)
    = (1, 3, (forkpty P (default_termios (termios_h P)) (os app_process)).2))
    by reflexivity.
  split; [exact Hfork |]. split; [lia |].
  exact (caller_side_ignores_arguments P _ _ _ _ _ _ app_process _ _ _ Hfork ltac:(lia)).
Defined.

(** X3.  In the process that called it the function asks for no
    native memory and leaves the native heap as it was; after
    [forkpty] it makes one of three runs of calls: the log message,
    [NewIntArray] alone, or [NewIntArray] and [SetIntArrayRegion].  It
    never changes the caller's working directory, never calls
    [execvpe] and never exits the caller. *)
Theorem caller_side_leaves_native_heap
  (P : platform) (cmd env : list string) (wd : string) (s : state)
  (pid fd : Z) (o' : os_state) :
  forkpty P (default_termios (termios_h P)) (os s) = (pid, fd, o') ->
  pid <> 0 ->
  let r := run (createSubprocess P cmd env wd) s in
  heap r.2 = heap s /\ asked r.2 = asked s /\ os r.2 = o' /\
  exists t,
    trace r.2 = trace s ++ OpForkpty (default_termios (termios_h P)) :: t /\
    (t = [OpLog "forkpty failed"] \/ t = [OpNewIntArray] \/
     t = [OpNewIntArray; OpSetIntArrayRegion]) /\
    calls is_chdir t = O /\ calls is_execvpe t = O /\ calls is_exit t = O.
Proof.
  intros Hfork Hne r. subst r. unfold run.
  rewrite (createSubprocess_branches P cmd env wd s pid fd o' Hfork).
  assert (Hz : (pid =? 0) = false) by (apply Z.eqb_neq; exact Hne).
  rewrite Hz. destruct (pid <? 0); simpl.
  - repeat split. exists [OpLog "forkpty failed"]. rewrite <- app_assoc. auto.
  - unfold parent, NewIntArray, SetIntArrayRegion, bind, emit, ret.
    destruct (NewIntArray_gives P); simpl; repeat split.
    + exists [OpNewIntArray; OpSetIntArrayRegion]. rewrite <- !app_assoc. auto 10.
    + exists [OpNewIntArray]. rewrite <- !app_assoc. auto 10.
Qed.

Lemma caller_side_leaves_native_heap_witness :
  let P := android {| openpty_works := false; fork_gives := ForkFails |} (fun _ => true) true in
  let r := run (createSubprocess P ["/bin/echo"]%string [] "/"%string) app_process in
  forkpty P (default_termios (termios_h P)) (os app_process) = (-1, 0, os app_process) /\
  -1 <> 0 /\
  heap r.2 = heap app_process /\ asked r.2 = asked app_process.
Proof.
  intros P r.
  assert (Hfork : forkpty P (default_termios (termios_h P)) (os app_process)
                  = (-1, 0, os app_process)) by reflexivity.
  split; [exact Hfork |]. split; [lia |].
  destruct (caller_side_leaves_native_heap P ["/bin/echo"]%string [] "/"%string
              app_process _ _ _ Hfork ltac:(lia)) as (Hheap & Hasked & _).
  split; [exact Hheap | exact Hasked].
Defined.

(** ** The child's side *)

Lemma child_chdir_granted (P : platform) wd s :
  heap_gives P (asked s) = true -> chdir P (c_str wd) = 0 ->
  exists s', child_chdir P wd s = (Val tt, s') /\ asked s' = S (asked s).
Proof.
  intros Hgive Hgo.
  unfold child_chdir, GetStringUTFChars, sys_chdir, bind, emit, allocate.
  simpl. rewrite Hgive. simpl. rewrite lookup_insert_eq. simpl. rewrite Hgo. simpl.
  eexists. split; reflexivity.
Qed.

Lemma createSubprocess_in_child (P : platform) cmd env wd s fd o' :
  forkpty P (default_termios (termios_h P)) (os s) = (0, fd, o') ->
  exists s1, createSubprocess P cmd env wd s = child P cmd env wd s1 /\
    heap s1 = heap s /\ brk s1 = brk s /\ asked s1 = asked s.
Proof.
  intros Hfork. rewrite (createSubprocess_branches P cmd env wd s 0 fd o' Hfork).
  simpl. eexists. split; [reflexivity |]. auto.
Qed.

(** X4.  In the child, when the working directory is accepted and the
    [malloc] of the environment vector is refused, the run ends in
    undefined behaviour whatever the command and the environment are:
    with an empty environment the store of the terminating null goes
    through the null pointer, otherwise the store of the first copy
    does. *)
Theorem refused_vector_is_undefined
  (P : platform) (cmd env : list string) (wd : string) (s : state)
  (fd : Z) (o' : os_state) :
  forkpty P (default_termios (termios_h P)) (os s) = (0, fd, o') ->
  heap_gives P (asked s) = true ->
  chdir P (c_str wd) = 0 ->
  heap_gives P (S (asked s)) = false ->
  (run (createSubprocess P cmd env wd) s).1 = Undefined.
Proof.
  intros Hfork Hfirst Hgo Hsecond. unfold run.
  destruct (createSubprocess_in_child P cmd env wd s fd o' Hfork)
    as (s1 & -> & _ & _ & Hasked).
  rewrite <- Hasked in Hfirst, Hsecond.
  destruct (child_chdir_granted P wd s1 Hfirst Hgo) as (s2 & Hchdir & Hasked2).
  unfold child. rewrite (bind_val _ _ s1 _ _ Hchdir).
  rewrite <- Hasked2 in Hsecond.
  pose proof (marshal_refused P env s2 Hsecond) as Hm.
  unfold child_exec, bind at 1.
  destruct (marshal P env s2) as [[q | o] s3]; simpl in Hm; [discriminate |].
  injection Hm as ->. reflexivity.
Qed.

Lemma refused_vector_is_undefined_witness :
  let P := android {| openpty_works := true; fork_gives := InChild |}
             (fun k => negb (k =? 1)%nat) true in
  forkpty P (default_termios (termios_h P)) (os app_process)
    = (0, -1, (forkpty P (default_termios (termios_h P)) (os app_process)).2) /\
  heap_gives P (asked app_process) = true /\
  chdir P (c_str "/") = 0 /\
  heap_gives P (S (asked app_process)) = false /\
  (run (createSubprocess P ["/bin/echo"]%string [] "/"%string) app_process).1 = Undefined.
Proof.
  intros P.
  assert (Hfork : forkpty P (default_termios (termios_h P)) (os app_process)
    = (0, -1, (forkpty P (default_termios (termios_h P)) (os app_process)).2))
    by reflexivity.
  split; [exact Hfork |]. repeat (split; [reflexivity |]).
  exact (refused_vector_is_undefined P ["/bin/echo"]%string [] "/"%string app_process
           _ _ Hfork eq_refl eq_refl eq_refl).
Defined.



(** X6.  In the child, whatever the allocator answers: if the program
    is started, [execvpe] accepted it, its argument vector is a leading
    part of the command and its environment a leading part of the
    environment passed by the caller (each string cut at its first NUL
    byte), and the file searched for is the first argument.  No string
    is ever handed over that the caller did not pass, none out of
    order. *)
Theorem program_started_on_leading_parts
  (P : platform) (cmd env : list string) (wd : string) (s : state)
  (fd : Z) (o' : os_state) (f : option string) (av ev : list string) :
  forkpty P (default_termios (termios_h P)) (os s) = (0, fd, o') ->
  heap_wf s ->
  (run (createSubprocess P cmd env wd) s).1 = ImageReplaced f av ev ->
  execvpe P f av ev = true /\ given_leading_parts cmd env f av ev.
Proof.
  intros Hfork Hwf. unfold run.
  destruct (createSubprocess_in_child P cmd env wd s fd o' Hfork)
    as (s1 & -> & Hheap & Hbrk & _).
  assert (Hwf1 : heap_wf s1).
  { intros y Hy. rewrite Hheap in Hy. rewrite Hbrk. apply Hwf. exact Hy. }
  pose proof (child_chdir_wf P wd s1 Hwf1) as Hchdir.
  unfold child, bind at 1.
  destruct (child_chdir P wd s1) as [[[] | o] s2].
  - pose proof (child_exec_any P cmd env s2 Hchdir) as Hexec.
    destruct (child_exec P cmd env s2) as [[res | [res | code | f' av' ev' |]] s3];
      simpl; try contradiction; try discriminate.
    intros Heq. injection Heq as -> -> ->. exact Hexec.
  - subst o. simpl. discriminate.
Qed.

Lemma program_started_on_leading_parts_witness :
  let P := android {| openpty_works := true; fork_gives := InChild |}
             (fun k => negb (k =? 3)%nat) true in
  let r := run (createSubprocess P ["/bin/echo"]%string ["A=1"; "B=2"]%string "/"%string)
             app_process in
  forkpty P (default_termios (termios_h P)) (os app_process)
    = (0, -1, (forkpty P (default_termios (termios_h P)) (os app_process)).2) /\
  heap_wf app_process /\
  r.1 = ImageReplaced (Some "/bin/echo"%string) ["/bin/echo"%string] [] /\
  given_leading_parts ["/bin/echo"]%string ["A=1"; "B=2"]%string
    (Some "/bin/echo"%string) ["/bin/echo"%string] [].
Proof.
  intros P r.
  assert (Hfork : forkpty P (default_termios (termios_h P)) (os app_process)
    = (0, -1, (forkpty P (default_termios (termios_h P)) (os app_process)).2))
    by reflexivity.
  assert (Hr : r.1 = ImageReplaced (Some "/bin/echo"%string) ["/bin/echo"%string] [])
    by (vm_compute; reflexivity).
  split; [exact Hfork |]. split; [apply heap_wf_fresh |]. split; [exact Hr |].
  exact (proj2 (program_started_on_leading_parts P _ _ _ app_process _ _ _ _ _
                  Hfork (heap_wf_fresh _) Hr)).
Defined.



(** ** Nothing is tried twice *)

Lemma calls_app f t1 t2 : calls f (t1 ++ t2) = (calls f t1 + calls f t2)%nat.
Proof. unfold calls. rewrite List.filter_app, length_app. reflexivity. Qed.

Lemma no_calls_in_marshalling f t :
  (forall e, marshal_op e = true -> f e = false) ->
  forallb marshal_op t = true -> calls f t = O.
Proof.
  intros Hf. unfold calls. induction t as [| e t IH]; simpl; [reflexivity |].
  intros H. apply andb_true_iff in H as [He Ht].
  rewrite (Hf e He). apply IH. exact Ht.
Qed.

(** X8.  In every run of [createSubprocess], in whichever process and
    whatever the platform answers, [forkpty] is called exactly once,
    and [chdir], [execvpe] and [exit] at most once each: no step is
    retried. *)
Theorem no_call_is_retried
  (P : platform) (cmd env : list string) (wd : string) (s : state) :
  exists t,
    trace (run (createSubprocess P cmd env wd) s).2 = trace s ++ t /\
    calls is_forkpty t = 1%nat /\
    (calls is_chdir t <= 1)%nat /\
    (calls is_execvpe t <= 1)%nat /\
    (calls is_exit t <= 1)%nat.
Proof.
  unfold run.
  destruct (forkpty P (default_termios (termios_h P)) (os s)) as [[pid fd] o'] eqn:Hfork.
  rewrite (createSubprocess_branches P cmd env wd s pid fd o' Hfork).
  set (s1 := record_op (OpForkpty (default_termios (termios_h P))) (set_os o' s)).
  assert (Htr1 : forall l, trace s1 ++ l
                  = trace s ++ OpForkpty (default_termios (termios_h P)) :: l)
    by (intros l; simpl; rewrite <- app_assoc; reflexivity).
  destruct (pid <? 0).
  - exists [OpForkpty (default_termios (termios_h P)); OpLog "forkpty failed"].
    simpl. rewrite <- app_assoc. unfold calls. simpl. repeat split; lia.
  - destruct (pid =? 0).
    + assert (Hm : forall f t, (forall e, marshal_op e = true -> f e = false) ->
                     forallb marshal_op t = true -> calls f t = O)
        by exact no_calls_in_marshalling.
      destruct (child_cases P cmd env wd s1) as
        [(_ & Hr & Ht) | (_ & t & Hops & Hcases)].
      * destruct (child P cmd env wd s1) as [[res | o] s2]; simpl in Hr, Ht;
          [discriminate |].
        simpl. rewrite Ht, Htr1. eexists. split; [reflexivity |].
        unfold calls. simpl. repeat split; lia.
      * assert (H1 : calls is_forkpty t = O)
          by (apply Hm; [intros [] He; (discriminate || reflexivity) | exact Hops]).
        assert (H2 : calls is_chdir t = O)
          by (apply Hm; [intros [] He; (discriminate || reflexivity) | exact Hops]).
        assert (H3 : calls is_execvpe t = O)
          by (apply Hm; [intros [] He; (discriminate || reflexivity) | exact Hops]).
        assert (H4 : calls is_exit t = O)
          by (apply Hm; [intros [] He; (discriminate || reflexivity) | exact Hops]).
        destruct Hcases as [[Hr Ht] |
           [(f & av & ev & _ & Hr & Ht) | (f & av & ev & _ & Hr & Ht)]];
        destruct (child P cmd env wd s1) as [[res | o] s2]; simpl in Hr, Ht;
        try discriminate; simpl; rewrite Ht, Htr1; eexists; (split; [reflexivity |]);
        change (?a :: ?b :: ?c :: ?d :: t ++ ?l) with ([a; b; c; d] ++ t ++ l);
        change (?a :: ?b :: ?c :: ?d :: t) with ([a; b; c; d] ++ t);
        rewrite ?calls_app, ?H1, ?H2, ?H3, ?H4;
        unfold calls; simpl; repeat split; lia.
    + unfold parent, NewIntArray, SetIntArrayRegion, bind, emit, ret.
      destruct (NewIntArray_gives P); simpl; rewrite <- !app_assoc; simpl;
        eexists; (split; [reflexivity |]); unfold calls; simpl; repeat split; lia.
Qed.

(** ** Reaping, further *)

(** X9.  Whatever [waitpid] does, failure included, and whatever
    [status] held before the call, the value [waitFor] returns is -1
    or an exit code between 0 and 255. *)
Theorem waitFor_result_in_range
  (p : Wait.abi) (waitpid : Z -> Z -> Wait.waited) (garbage pid : Z) :
  Wait.abi_ok p ->
  Wait.waitFor p waitpid garbage pid = -1 \/
  0 <= Wait.waitFor p waitpid garbage pid <= 255.
Proof.
  intros Hok. unfold Wait.waitFor.
  destruct (Wait.WIFEXITED p _); [right | left; reflexivity].
  apply (Wait.code_range p Hok).
Qed.

Lemma waitFor_result_in_range_witness :
  let failed := fun (_ _ : Z) => {| Wait.wret := -1; Wait.wstored := None |} in
  Wait.abi_ok Wait.linux /\
  (Wait.waitFor Wait.linux failed 0x1ff00 99999 = -1 \/
   0 <= Wait.waitFor Wait.linux failed 0x1ff00 99999 <= 255).
Proof.
  intros failed. split; [exact linux_wait_ok |].
  exact (waitFor_result_in_range Wait.linux failed 0x1ff00 99999 linux_wait_ok).
Defined.

(** X10.  The two functions together: when the child branch of
    [createSubprocess] ends the child by [exit], for a refused working
    directory or a program that did not start, and the kernel reports
    that exit to [waitpid], [waitFor] returns 1: the caller sees a
    status that is neither 0 nor the sentinel -1. *)
Theorem failed_child_is_reported_as_one
  (P : platform) (p : Wait.abi) (cmd env : list string) (wd : string) (s : state)
  (fd : Z) (o' : os_state) (code : Z)
  (waitpid : Z -> Z -> Wait.waited) (garbage pid : Z) :
  forkpty P (default_termios (termios_h P)) (os s) = (0, fd, o') ->
  (run (createSubprocess P cmd env wd) s).1 = ProcessExited code ->
  Wait.abi_ok p ->
  Wait.wstored (waitpid pid 0) = Some (Wait.wstatus p (Wait.Exited code)) ->
  Wait.waitFor p waitpid garbage pid = 1.
Proof.
  intros Hfork Hrun Hok Hstored.
  assert (Hcode : code = 1).
  { unfold run in Hrun.
    destruct (createSubprocess_in_child P cmd env wd s fd o' Hfork) as (s1 & Heq & _).
    rewrite Heq in Hrun.
    destruct (child_cases P cmd env wd s1) as
      [(_ & Hr & _) | (_ & t & _ & [[Hr _] |
         [(f & av & ev & _ & Hr & _) | (f & av & ev & _ & Hr & _)]])];
      destruct (child P cmd env wd s1) as [[res | o] s2]; simpl in Hr, Hrun;
      try discriminate; injection Hr as ->; congruence. }
  subst code. unfold Wait.waitFor. rewrite Hstored.
  rewrite (Wait.exited_true p Hok), (Wait.exited_code p Hok). reflexivity.
Qed.

(** The working directory does not exist; the kernel reports the exit
    with the status word 0x100. *)
Lemma failed_child_is_reported_as_one_witness :
  let P := android {| openpty_works := true; fork_gives := InChild |} (fun _ => true) true in
  let waitpid := fun (_ _ : Z) => {| Wait.wret := 1; Wait.wstored := Some 0x100 |} in
  forkpty P (default_termios (termios_h P)) (os app_process)
    = (0, -1, (forkpty P (default_termios (termios_h P)) (os app_process)).2) /\
  (run (createSubprocess P ["/bin/echo"]%string [] "/nonexistent"%string) app_process).1
    = ProcessExited 1 /\
  Wait.abi_ok Wait.linux /\
  Wait.wstored (waitpid 1 0) = Some (Wait.wstatus Wait.linux (Wait.Exited 1)) /\
  Wait.waitFor Wait.linux waitpid 0 1 = 1.
Proof.
  intros P waitpid.
  assert (Hfork : forkpty P (default_termios (termios_h P)) (os app_process)
    = (0, -1, (forkpty P (default_termios (termios_h P)) (os app_process)).2))
    by reflexivity.
  assert (Hrun : (run (createSubprocess P ["/bin/echo"]%string [] "/nonexistent"%string)
                    app_process).1 = ProcessExited 1) by (vm_compute; reflexivity).
  split; [exact Hfork |]. split; [exact Hrun |]. split; [exact linux_wait_ok |].
  split; [reflexivity |].
  exact (failed_child_is_reported_as_one P Wait.linux _ _ _ app_process _ _ 1
           waitpid 0 1 Hfork Hrun linux_wait_ok eq_refl).
Defined.

(** ** The terminal mode, further *)

Lemma lookup_repeat {A} (x : A) (n i : nat) : (i < n)%nat -> repeat x n !! i = Some x.
Proof.
  revert i. induction n as [| n IH]; intros i Hi; [lia |].
  destruct i as [| i]; simpl; [reflexivity |]. apply IH. lia.
Qed.

Lemma Forall_repeat {A} (Q : A -> Prop) (x : A) (n : nat) : Q x -> Forall Q (repeat x n).
Proof. intros Hx. induction n; simpl; constructor; auto. Qed.

(** X11.  Every flag named at lines 30-33 is set in the word it is
    assigned to, whatever values the header gives the flags: carriage
    return to newline, XON/XOFF and any-character restart on input;
    post-processing and newline to CR-NL on output; signals, canonical
    mode, the four echo flags and extended processing in the local
    flags; eight-bit characters and the receiver in the control
    flags. *)
Theorem default_termios_sets_every_named_flag (p : Termios.abi) :
  let mode := default_termios p in
  (has_flag (c_iflag mode) (ICRNL p) /\ has_flag (c_iflag mode) (IXON p) /\
   has_flag (c_iflag mode) (IXANY p)) /\
  (has_flag (c_oflag mode) (OPOST p) /\ has_flag (c_oflag mode) (ONLCR p)) /\
  (has_flag (c_lflag mode) (ISIG p) /\ has_flag (c_lflag mode) (ICANON p) /\
   has_flag (c_lflag mode) (ECHO p) /\ has_flag (c_lflag mode) (ECHOE p) /\
   has_flag (c_lflag mode) (ECHOK p) /\ has_flag (c_lflag mode) (ECHONL p) /\
   has_flag (c_lflag mode) (IEXTEN p)) /\
  (has_flag (c_cflag mode) (CS8 p) /\ has_flag (c_cflag mode) (CREAD p)).
Proof.
  assert (Hfirst : forall a b, has_flag (Z.lor a b) a)
    by (intros a b; rewrite Z.lor_comm; apply has_flag_here).
  unfold default_termios; simpl.
  repeat split;
    repeat first [ apply has_flag_here | apply Hfirst | apply has_flag_left ].
Qed.

(** X12.  The control-character array has [NCCS] entries, each a byte;
    outside the ten slots the code assigns, every entry is the zero
    the [memset] left. *)
Theorem default_cc_is_zero_elsewhere (p : Termios.abi) :
  let cc := c_cc (default_termios p) in
  length cc = NCCS p /\
  Forall (fun x => 0 <= x <= 255) cc /\
  forall i, (i < NCCS p)%nat -> i ∉ slots p -> cc !! i = Some 0.
Proof.
  unfold default_termios; simpl. split; [| split].
  - rewrite !length_insert. apply repeat_length.
  - assert (Hbyte : forall v, 0 <= to_cc v <= 255)
      by (intros v; unfold to_cc; pose proof (Z.mod_pos_bound v 256); lia).
    repeat (apply Forall_insert; [| apply Hbyte]).
    apply Forall_repeat. lia.
  - intros i Hi Hout. unfold slots in Hout.
    rewrite !not_elem_of_cons in Hout. destruct_and!.
    rewrite !list_lookup_insert_ne by congruence.
    apply lookup_repeat. exact Hi.
Qed.

(** Slot 7 of the Linux array ([VSWTC]) is not assigned. *)
Lemma default_cc_is_zero_elsewhere_witness :
  (7 < NCCS Termios.linux)%nat /\ (7%nat ∉ slots Termios.linux) /\
  c_cc (default_termios Termios.linux) !! 7%nat = Some 0.
Proof.
  assert (Hin : (7 < NCCS Termios.linux)%nat) by (simpl; lia).
  assert (Hout : 7%nat ∉ slots Termios.linux).
  { unfold slots; simpl. rewrite !not_elem_of_cons.
    repeat split; first [ lia | apply not_elem_of_nil ]. }
  split; [exact Hin |]. split; [exact Hout |].
  exact (proj2 (proj2 (default_cc_is_zero_elsewhere Termios.linux)) 7%nat Hin Hout).
Defined.
